(** * Magic Mock: the quiz validator of [generateQuiz] and the [QuizScreen]
      session, embedded in Rocq.

    Sources: src/services/geminiService.ts (generateQuiz, translateText),
    src/components/icons.tsx (the QuizScreen component, which follows the
    icon module in that file), src/App.tsx (handleQuizComplete, navigation),
    src/types.ts (the data model). *)

From Stdlib Require Import String Ascii List ZArith Bool Lia Permutation.
Import ListNotations.
Open Scope string_scope.
Set Warnings "-register-all".

(* ------------------------------------------------------------------ *)
(** ** JSON values as returned by [JSON.parse]

    The provider reply is untyped.  [JSON.parse] builds objects whose keys
    are distinct; an object is kept as its list of properties in insertion
    order.  Numbers are only compared for equality here, so integers
    suffice.  JavaScript strings are modelled as [string] (code units below
    256). *)

Inductive json : Type :=
| JNull
| JBool (b : bool)
| JNum (n : Z)
| JStr (s : string)
| JArr (items : list json)
| JObj (props : list (string * json)).

(** The result of a property read: [undefined] or a value. *)
Inductive jsv : Type :=
| Undef
| Val (v : json).

(** Errors thrown inside the validation block of [generateQuiz]
    (lines 168-190), plus the [TypeError] of reading a property of
    [null]. *)
Inductive gen_error : Type :=
| ErrTypeError
| ErrMissingQuestions       (* "AI response is missing the 'questions' array." *)
| ErrInvalidOptions         (* "... a question with invalid options ..." *)
| ErrAnswerNotInOptions     (* "... correct answer was not in the options list ..." *)
| ErrUnknownQuestionType.   (* "... an unknown question type ..." *)

Fixpoint lookup (props : list (string * json)) (k : string) : jsv :=
  match props with
  | [] => Undef
  | (k', v) :: rest => if String.eqb k k' then Val v else lookup rest k
  end.

(** [v.k] for the keys the validator reads ([questions], [questionType],
    [options], [correctAnswer], [questionText]): none of them is an own
    or inherited property of arrays, strings, numbers or booleans, so those
    read [undefined]; reading a property of [null] throws. *)
Definition prop (v : json) (k : string) : gen_error + jsv :=
  match v with
  | JNull => inl ErrTypeError
  | JObj props => inr (lookup props k)
  | _ => inr Undef
  end.

(** [o.k = v] on an object: an existing key keeps its position, a new key
    is appended. *)
Fixpoint assign (props : list (string * json)) (k : string) (v : json)
  : list (string * json) :=
  match props with
  | [] => [(k, v)]
  | (k', w) :: rest =>
      if String.eqb k k' then (k', v) :: rest else (k', w) :: assign rest k v
  end.

Definition set_prop (o : json) (k : string) (v : json) : json :=
  match o with
  | JObj props => JObj (assign props k v)
  | _ => o
  end.

(** [String.prototype.trim] removes white space and line terminators at
    both ends; below code unit 256 these are TAB, LF, VT, FF, CR, SPACE
    and NO-BREAK SPACE. *)
Definition is_js_space (c : ascii) : bool :=
  let n := nat_of_ascii c in
  (Nat.eqb n 9 || Nat.eqb n 10 || Nat.eqb n 11 || Nat.eqb n 12
   || Nat.eqb n 13 || Nat.eqb n 32 || Nat.eqb n 160)%bool.

Fixpoint trim_start (s : string) : string :=
  match s with
  | EmptyString => EmptyString
  | String c rest => if is_js_space c then trim_start rest else s
  end.

Definition string_rev (s : string) : string :=
  string_of_list_ascii (rev (list_ascii_of_string s)).

Definition trim (s : string) : string :=
  string_rev (trim_start (string_rev (trim_start s))).

(** [typeof opt !== 'string' || opt.trim() === ''] *)
Definition bad_option (opt : json) : bool :=
  match opt with
  | JStr s => String.eqb (trim s) ""
  | _ => true
  end.

(** SameValueZero between an array element and the searched value, as in
    [Array.prototype.includes].  Arrays and objects compare by reference,
    and [JSON.parse] never returns the same object twice. *)
Definition same_value_zero (o : json) (v : jsv) : bool :=
  match o, v with
  | JNull, Val JNull => true
  | JBool a, Val (JBool b) => Bool.eqb a b
  | JNum a, Val (JNum b) => Z.eqb a b
  | JStr a, Val (JStr b) => String.eqb a b
  | _, _ => false
  end.

Definition includes (items : list json) (v : jsv) : bool :=
  existsb (fun o => same_value_zero o v) items.

Definition is_str (v : jsv) (s : string) : bool :=
  match v with
  | Val (JStr s') => String.eqb s' s
  | _ => false
  end.

(** One iteration of [for (const q of quizData.questions)]: the question
    object after the iteration (the fill-in-the-blank branch assigns
    [q.options = []]) or the error thrown. *)
Definition validate_question (q : json) : gen_error + json :=
  match prop q "questionType" with
  | inl e => inl e
  | inr qt =>
      if is_str qt "multiple_choice" then
        match prop q "options" with
        | inl e => inl e
        | inr (Val (JArr opts)) =>
            if negb (Nat.eqb (length opts) 4) || existsb bad_option opts then
              inl ErrInvalidOptions
            else
              match prop q "correctAnswer" with
              | inl e => inl e
              | inr ca =>
                  if includes opts ca then inr q else inl ErrAnswerNotInOptions
              end
        | inr _ => inl ErrInvalidOptions
        end
      else if is_str qt "fill_in_the_blank" then
        inr (set_prop q "options" (JArr []))
      else inl ErrUnknownQuestionType
  end.

(** The loop: stops at the first throw. *)
Fixpoint validate_questions (qs : list json) : gen_error + list json :=
  match qs with
  | [] => inr []
  | q :: rest =>
      match validate_question q with
      | inl e => inl e
      | inr q' =>
          match validate_questions rest with
          | inl e => inl e
          | inr rest' => inr (q' :: rest')
          end
      end
  end.

(** Lines 167-193 of [generateQuiz]: the parsed reply [quizData] is
    checked, its question objects are updated in place, and [quizData]
    itself is returned as the [Quiz]. *)
Definition validate (quizData : json) : gen_error + json :=
  match prop quizData "questions" with
  | inl e => inl e
  | inr (Val (JArr qs)) =>
      match validate_questions qs with
      | inl e => inl e
      | inr qs' => inr (set_prop quizData "questions" (JArr qs'))
      end
  | inr _ => inl ErrMissingQuestions
  end.

Definition error_of {A} (r : gen_error + A) : option gen_error :=
  match r with inl e => Some e | inr _ => None end.

(* ------------------------------------------------------------------ *)
(** ** The data model of src/types.ts *)

Inductive QuestionKind : Type := multiple_choice | fill_in_the_blank.

Record Question : Type := {
  questionText : string;
  questionType : QuestionKind;
  options : list string;
  correctAnswer : string;
  explanation : string
}.

Record Quiz : Type := {
  topic : string;
  questions : list Question
}.

Inductive QuestionType : Type := MultipleChoice | FillInTheBlank | Mixed.
Inductive Difficulty : Type := Easy | Medium | Hard.

Record QuizSettings : Type := {
  settings_topic : string;
  documentContent : option string;
  numQuestions : Z;
  settings_questionType : QuestionType;
  difficulty : Difficulty;
  duration : Z;               (* minutes *)
  language : string
}.

Record QuizResult : Type := {
  id : string;
  result_quiz : Quiz;
  result_settings : QuizSettings;
  userAnswers : list (option string);   (* [null] is [None] *)
  score : nat;
  timeTaken : Z;              (* seconds *)
  folderId : string;
  tags : list string
}.

(** [Number.prototype.toString] on the non-negative integers returned by
    [Date.now()]. *)
Fixpoint decimal_digits (fuel : nat) (n : Z) (acc : string) : string :=
  match fuel with
  | O => acc
  | S f =>
      let c := ascii_of_nat (48 + Z.to_nat (Z.modulo n 10)) in
      let q := Z.div n 10 in
      if Z.eqb q 0 then String c acc else decimal_digits f q (String c acc)
  end.

Definition number_toString (n : Z) : string :=
  if Z.ltb n 0 then "-" ++ decimal_digits 64 (- n) "" else decimal_digits 64 n "".

(* ------------------------------------------------------------------ *)
(** ** The translation provider and [translateText]

    The network call and [JSON.parse] are the provider: for an array of
    texts it yields the parsed reply or fails ([None]: network error or
    unparsable text); for one text it yields the reply text or fails. *)

Record Provider : Type := {
  translate_array : list string -> string -> option json;
  translate_single : string -> string -> option string
}.

(** The array branch of [translateText] (geminiService.ts lines 31-68):
    [None] when it throws ("Failed to translate text."). *)
Definition translateText_array (p : Provider) (texts : list string)
    (language : string) : option (list json) :=
  match translate_array p texts language with
  | None => None
  | Some result =>
      match prop result "translations" with
      | inr (Val (JArr ts)) =>
          if Nat.eqb (length ts) (length texts) then Some ts else None
      | _ => None
      end
  end.

(* ------------------------------------------------------------------ *)
(** ** The [QuizScreen] component

    The component state is the record below; [timerActive] says whether
    [timerInterval.current] holds an interval that has not been cleared.
    Each event runs a handler and then, when the handler changed a
    dependency of the timer effect ([isPaused], [timeLeft] or
    [handleSubmit], which changes with [userAnswers]), the effect itself.
    An event may emit the [QuizResult] passed to [onComplete]. *)

Module QuizScreen.

Record TranslatedContent : Type := {
  tc_question : jsv;
  tc_options : option (list json)
}.

Record State : Type := {
  quiz : Quiz;
  settings : QuizSettings;
  currentQuestionIndex : nat;
  userAnswers : list (option string);
  timeLeft : Z;
  isPaused : bool;
  isTranslating : bool;
  showTranslateModal : bool;
  translatedContent : option TranslatedContent;
  timerActive : bool
}.

Definition set_timer (s : State) (b : bool) : State :=
  {| quiz := quiz s; settings := settings s;
     currentQuestionIndex := currentQuestionIndex s; userAnswers := userAnswers s;
     timeLeft := timeLeft s; isPaused := isPaused s; isTranslating := isTranslating s;
     showTranslateModal := showTranslateModal s;
     translatedContent := translatedContent s; timerActive := b |}.

Definition set_timeLeft (s : State) (t : Z) : State :=
  {| quiz := quiz s; settings := settings s;
     currentQuestionIndex := currentQuestionIndex s; userAnswers := userAnswers s;
     timeLeft := t; isPaused := isPaused s; isTranslating := isTranslating s;
     showTranslateModal := showTranslateModal s;
     translatedContent := translatedContent s; timerActive := timerActive s |}.

Definition set_paused (s : State) (b : bool) : State :=
  {| quiz := quiz s; settings := settings s;
     currentQuestionIndex := currentQuestionIndex s; userAnswers := userAnswers s;
     timeLeft := timeLeft s; isPaused := b; isTranslating := isTranslating s;
     showTranslateModal := showTranslateModal s;
     translatedContent := translatedContent s; timerActive := timerActive s |}.

Definition set_userAnswers (s : State) (a : list (option string)) : State :=
  {| quiz := quiz s; settings := settings s;
     currentQuestionIndex := currentQuestionIndex s; userAnswers := a;
     timeLeft := timeLeft s; isPaused := isPaused s; isTranslating := isTranslating s;
     showTranslateModal := showTranslateModal s;
     translatedContent := translatedContent s; timerActive := timerActive s |}.

Definition set_question (s : State) (i : nat) : State :=
  {| quiz := quiz s; settings := settings s;
     currentQuestionIndex := i; userAnswers := userAnswers s;
     timeLeft := timeLeft s; isPaused := isPaused s; isTranslating := isTranslating s;
     showTranslateModal := showTranslateModal s;
     translatedContent := None; timerActive := timerActive s |}.

Definition set_translation (s : State) (busy modal : bool)
    (tc : option TranslatedContent) : State :=
  {| quiz := quiz s; settings := settings s;
     currentQuestionIndex := currentQuestionIndex s; userAnswers := userAnswers s;
     timeLeft := timeLeft s; isPaused := isPaused s; isTranslating := busy;
     showTranslateModal := modal;
     translatedContent := tc; timerActive := timerActive s |}.

(** The first render: [useState] initialisers. *)
Definition initial (q : Quiz) (st : QuizSettings) : State :=
  {| quiz := q; settings := st; currentQuestionIndex := 0;
     userAnswers := repeat None (length (questions q));
     timeLeft := duration st * 60; isPaused := false; isTranslating := false;
     showTranslateModal := false; translatedContent := None; timerActive := false |}.

(** [answer === quiz.questions[index].correctAnswer] *)
Definition answer_matches (a : option string) (q : Question) : bool :=
  match a with
  | Some x => String.eqb x (correctAnswer q)
  | None => false
  end.

(** [userAnswers.reduce((acc, answer, index) => ..., 0)]; [None] when
    [quiz.questions[index]] is [undefined] and reading [.correctAnswer]
    throws. *)
Fixpoint reduce_score (answers : list (option string)) (qs : list Question)
    (index acc : nat) : option nat :=
  match answers with
  | [] => Some acc
  | a :: rest =>
      match nth_error qs index with
      | None => None
      | Some q =>
          reduce_score rest qs (S index)
            (if answer_matches a q then S acc else acc)
      end
  end.

(** [handleSubmit]: clears the interval, computes the result and hands it
    to [onComplete]. *)
Definition handleSubmit (s : State) : State * option QuizResult :=
  let s1 := set_timer s false in
  match reduce_score (userAnswers s) (questions (quiz s)) 0 0 with
  | None => (s1, None)
  | Some sc =>
      (s1, Some (Build_QuizResult
                   ""                                       (* id *)
                   (quiz s) (settings s) (userAnswers s)
                   sc                                       (* score *)
                   (duration (settings s) * 60 - timeLeft s) (* timeTaken *)
                   "uncategorized" []))
  end.

(** The timer effect (lines 124-139), re-run after a render in which one
    of its dependencies changed: the cleanup of the previous run clears its
    interval, then the effect either returns (paused), submits (time is
    up) or installs a new one-second interval. *)
Definition run_effect (s : State) : State * option QuizResult :=
  let s := set_timer s false in
  if isPaused s then (s, None)
  else if Z.leb (timeLeft s) 0 then handleSubmit s
  else (set_timer s true, None).

(** [newAnswers[currentQuestionIndex] = answer] on a copy of the array.
    The index is always below the length (see [reachable_invariant]), so
    JavaScript's growing of the array past its end never happens. *)
Fixpoint array_set {A} (l : list A) (i : nat) (v : A) : list A :=
  match l, i with
  | [], _ => []
  | _ :: rest, O => v :: rest
  | x :: rest, S j => x :: array_set rest j v
  end.

(** [textsToTranslate] *)
Definition translate_texts (q : Question) : list string :=
  questionText q :: options q.

(** [handleTranslate(language)] (lines 164-190), with the provider's reply
    awaited before any other event.  The boolean says whether the
    [alert('Failed to translate the question.')] was shown. *)
Definition handleTranslate (s : State) (language : string) (p : Provider)
    : State * bool :=
  let s1 := set_translation s true false None in
  let '(s2, failed) :=
    match nth_error (questions (quiz s)) (currentQuestionIndex s) with
    | None => (s1, true)          (* [currentQuestion.questionType] throws *)
    | Some q =>
        match questionType q with
        | multiple_choice =>
            let texts := translate_texts q in
            match translateText_array p texts language with
            | None => (s1, true)
            | Some translations =>
                if Nat.eqb (length translations) (length texts) then
                  match translations with
                  | t :: rest =>
                      (set_translation s1 true false
                         (Some {| tc_question := Val t; tc_options := Some rest |}),
                       false)
                  | [] =>
                      (set_translation s1 true false
                         (Some {| tc_question := Undef; tc_options := Some [] |}),
                       false)
                  end
                else (s1, true)   (* "Translation array length mismatch." *)
            end
        | fill_in_the_blank =>
            match translate_single p (questionText q) language with
            | None => (s1, true)
            | Some t =>
                (set_translation s1 true false
                   (Some {| tc_question := Val (JStr t); tc_options := None |}),
                 false)
            end
        end
    end in
  (set_translation s2 false (showTranslateModal s2) (translatedContent s2), failed).

Inductive event : Type :=
| Tick                                (* the interval callback fires *)
| TogglePause                         (* [setIsPaused(!isPaused)] *)
| AnswerChange (answer : string)      (* [handleAnswerChange(answer)] *)
| ChangeQuestion (newIndex : Z)       (* [changeQuestion(newIndex)] *)
| SubmitClick                         (* the "Submit Quiz" button *)
| TranslateTo (language : string) (p : Provider).

Definition step (s : State) (e : event) : State * option QuizResult :=
  match e with
  | Tick =>
      if timerActive s then run_effect (set_timeLeft s (timeLeft s - 1))
      else (s, None)
  | TogglePause => run_effect (set_paused s (negb (isPaused s)))
  | AnswerChange a =>
      run_effect
        (set_userAnswers s (array_set (userAnswers s) (currentQuestionIndex s) (Some a)))
  | ChangeQuestion i =>
      if Z.leb 0 i && Z.ltb i (Z.of_nat (length (questions (quiz s)))) then
        (set_question s (Z.to_nat i), None)
      else (s, None)
  | SubmitClick => handleSubmit s
  | TranslateTo lang p => (fst (handleTranslate s lang p), None)
  end.

(** Mounting [<QuizScreen quiz settings>]: the first render reads
    [quiz.questions[0].questionText], which throws on an empty quiz (no
    state exists then); otherwise the effect runs once after the first
    render. *)
Definition mount (q : Quiz) (st : QuizSettings) : option (State * option QuizResult) :=
  match questions q with
  | [] => None
  | _ => Some (run_effect (initial q st))
  end.

(** The states a mounted component can be in. *)
Inductive reachable : State -> Prop :=
| reach_mount q st s r : mount q st = Some (s, r) -> reachable s
| reach_step s e : reachable s -> reachable (fst (step s e)).

(** A result is passed to [onComplete] and the component is in state [s']
    right after. *)
Inductive emits : QuizResult -> State -> Prop :=
| emits_mount q st s' r : mount q st = Some (s', Some r) -> emits r s'
| emits_step s e s' r : reachable s -> step s e = (s', Some r) -> emits r s'.

Fixpoint ticks (n : nat) (s : State) : State :=
  match n with
  | O => s
  | S k => ticks k (fst (step s Tick))
  end.

End QuizScreen.

(* ------------------------------------------------------------------ *)
(** ** The [App] component (src/App.tsx)

    [navigate] only assigns [window.location.hash]; the screen changes when
    the browser later delivers the [hashchange] event ([HashChange]).  The
    [QuizScreen] is mounted while [screen = 'quiz'].  [handleQuizComplete]
    is a fresh closure at every render of [App], so every render of [App]
    re-renders [QuizScreen] with a new [onComplete], which gives a new
    [handleSubmit] and re-runs the timer effect ([Render]).  [App]
    re-renders after each of its state updates, e.g. [setQuizResults]. *)

Module App.

Inductive Screen : Type := Settings | QuizS | Results | History.

Definition screen_eqb (a b : Screen) : bool :=
  match a, b with
  | Settings, Settings | QuizS, QuizS | Results, Results | History, History => true
  | _, _ => false
  end.

Record State : Type := {
  screen : Screen;
  hash : Screen;                      (* [window.location.hash] *)
  currentQuiz : option (Quiz * QuizSettings);
  quizResults : list QuizResult;
  now : Z;                            (* [Date.now()] *)
  quizScreen : option QuizScreen.State
}.

Definition with_quizScreen (a : State) (q : option QuizScreen.State) : State :=
  {| screen := screen a; hash := hash a; currentQuiz := currentQuiz a;
     quizResults := quizResults a; now := now a; quizScreen := q |}.

(** [handleQuizComplete] (lines 126-130). *)
Definition handleQuizComplete (result : QuizResult) (a : State) : State :=
  let newResult :=
    Build_QuizResult (number_toString (now a)) (result_quiz result)
      (result_settings result) (userAnswers result) (score result)
      (timeTaken result) "uncategorized" [] in
  {| screen := screen a; hash := Results; currentQuiz := currentQuiz a;
     quizResults := newResult :: quizResults a; now := now a;
     quizScreen := quizScreen a |}.

Definition complete (r : option QuizResult) (a : State) : State :=
  match r with
  | None => a
  | Some result => handleQuizComplete result a
  end.

Inductive event : Type :=
| Quiz (e : QuizScreen.event)         (* an event of the mounted QuizScreen *)
| Render                              (* a render of [App] *)
| HashChange.                         (* the browser's [hashchange] *)

Definition step (a : State) (ev : event) : State :=
  match ev with
  | Quiz e =>
      match quizScreen a with
      | None => a
      | Some s => let '(s', r) := QuizScreen.step s e in
                  complete r (with_quizScreen a (Some s'))
      end
  | Render =>
      match quizScreen a with
      | None => a
      | Some s => let '(s', r) := QuizScreen.run_effect s in
                  complete r (with_quizScreen a (Some s'))
      end
  | HashChange =>
      let a' := {| screen := hash a; hash := hash a; currentQuiz := currentQuiz a;
                   quizResults := quizResults a; now := now a;
                   quizScreen := quizScreen a |} in
      match hash a, screen a with
      | QuizS, QuizS => a'
      | QuizS, _ =>
          match currentQuiz a with
          | Some (q, st) =>
              match QuizScreen.mount q st with
              | Some (s, r) => complete r (with_quizScreen a' (Some s))
              | None => with_quizScreen a' None
              end
          | None => with_quizScreen a' None
          end
      | _, _ => with_quizScreen a' None
      end
  end.

Definition run (a : State) (evs : list event) : State := fold_left step evs a.

End App.

(* ------------------------------------------------------------------ *)
(** ** The spec's wording, for comparison with the code *)

(** "exactly 4 entries, each a non-empty trimmed string" *)
Definition spec_options_valid (opts : list json) : Prop :=
  length opts = 4 /\ Forall (fun o => exists s, o = JStr s /\ trim s <> "") opts.

(** "[correctAnswer] case-sensitively equals one option" *)
Definition answer_in (opts : list json) (ca : jsv) : Prop :=
  exists s, ca = Val (JStr s) /\ In (JStr s) opts.

(** "the number of indices [i] with [userAnswers[i]] exactly string-equal
    to [quiz.questions[i].correctAnswer]" *)
Definition spec_score (answers : list (option string)) (qs : list Question) : nat :=
  length (filter (fun '(a, q) =>
                    match a with
                    | Some x => String.eqb x (correctAnswer q)
                    | None => false
                    end) (combine answers qs)).

(* ------------------------------------------------------------------ *)
(** ** Concrete inputs *)

Definition mc_question (text : string) (opts : list string) (answer : string) : json :=
  JObj [("questionText", JStr text); ("questionType", JStr "multiple_choice");
        ("options", JArr (map JStr opts)); ("correctAnswer", JStr answer);
        ("explanation", JStr "")].

Definition fill_question (text : string) (opts : list string) (answer : string) : json :=
  JObj [("questionText", JStr text); ("questionType", JStr "fill_in_the_blank");
        ("options", JArr (map JStr opts)); ("correctAnswer", JStr answer);
        ("explanation", JStr "")].

Definition candidate (qs : list json) : json :=
  JObj [("topic", JStr "Photosynthesis"); ("questions", JArr qs)].

Definition sample_question : Question :=
  {| questionText := "Which gas do plants absorb?"; questionType := multiple_choice;
     options := ["Oxygen"; "Carbon dioxide"; "Nitrogen"; "Helium"];
     correctAnswer := "Carbon dioxide"; explanation := "" |}.

Definition sample_quiz : Quiz :=
  {| topic := "Photosynthesis"; questions := [sample_question] |}.

Definition sample_settings : QuizSettings :=
  {| settings_topic := "Photosynthesis"; documentContent := None; numQuestions := 1;
     settings_questionType := MultipleChoice; difficulty := Easy; duration := 1;
     language := "" |}.

(** The state right after [<QuizScreen quiz={sample_quiz} .../>] mounts. *)
Definition sample_state : QuizScreen.State :=
  fst (QuizScreen.run_effect (QuizScreen.initial sample_quiz sample_settings)).

(** A provider whose array reply has four strings whatever it is asked. *)
Definition four_string_provider : Provider :=
  {| translate_array := fun _ _ =>
       Some (JObj [("translations", JArr (map JStr ["Quel gaz ?"; "Oxygene"; "Azote"; "Helium"]))]);
     translate_single := fun _ _ => None |}.

(** The app showing the quiz screen for [sample_quiz] (one minute). *)
Definition sample_app : App.State :=
  {| App.screen := App.QuizS; App.hash := App.QuizS;
     App.currentQuiz := Some (sample_quiz, sample_settings);
     App.quizResults := []; App.now := 1760000000000;
     App.quizScreen := Some sample_state |}.

(** Sixty ticks run the clock out; the [setQuizResults] of
    [handleQuizComplete] re-renders [App] before the browser delivers the
    [hashchange] queued by [navigate('results')]. *)
Definition timer_expiry_trace : list App.event :=
  (repeat (App.Quiz QuizScreen.Tick) 60 ++ [App.Render; App.HashChange])%list.

Definition manual_submit_trace : list App.event :=
  [App.Quiz QuizScreen.SubmitClick; App.Render; App.HashChange].

(* ------------------------------------------------------------------ *)
(** ** String operations of the remaining components *)

(** [String.prototype.toLowerCase] below code unit 256: A-Z and the
    Latin-1 capitals U+00C0-U+00DE except U+00D7 move 32 code units up;
    every other code unit is kept.  Above 255 the JavaScript mapping is not
    one code unit at a time (a capital sigma becomes a final sigma at the
    end of a word), so statements about searching ask the search text to
    be ASCII, whose lower case never depends on its neighbours. *)
Definition lower_char (c : ascii) : ascii :=
  let n := nat_of_ascii c in
  if (Nat.leb 65 n && Nat.leb n 90)
     || (Nat.leb 192 n && Nat.leb n 222 && negb (Nat.eqb n 215))
  then ascii_of_nat (n + 32) else c.

(** Every code unit of [s] is below 128. *)
Definition is_ascii (s : string) : bool :=
  forallb (fun c => Nat.ltb (nat_of_ascii c) 128) (list_ascii_of_string s).

Fixpoint toLowerCase (s : string) : string :=
  match s with
  | EmptyString => EmptyString
  | String c rest => String (lower_char c) (toLowerCase rest)
  end.

(** [s.split(sep)] for a separator of one code unit: the pieces between
    the separators, including empty ones; [''.split(sep)] is [['']]. *)
Fixpoint split_on (sep : ascii) (s : string) : list string :=
  match s with
  | EmptyString => [EmptyString]
  | String c rest =>
      let parts := split_on sep rest in
      if Ascii.eqb c sep then EmptyString :: parts
      else match parts with
           | p :: ps => String c p :: ps
           | [] => [String c EmptyString]
           end
  end.

(** [arr.join(sep)] on an array of strings. *)
Fixpoint join (sep : string) (l : list string) : string :=
  match l with
  | [] => ""
  | [x] => x
  | x :: rest => x ++ sep ++ join sep rest
  end.

(** [s.includes(t)]: [t] occurs in [s] at some position. *)
Fixpoint contains (s t : string) : bool :=
  String.prefix t s
  || match s with
     | EmptyString => false
     | String _ rest => contains rest t
     end.

(** Whether the code unit [c] occurs in [s]. *)
Fixpoint has_char (c : ascii) (s : string) : bool :=
  match s with
  | EmptyString => false
  | String d rest => Ascii.eqb d c || has_char c rest
  end.

(* ------------------------------------------------------------------ *)
(** ** [getMimeType] (geminiService.ts lines 13-21)

    [fileName.split('.').pop()]: [split] never returns an empty array, so
    [pop()] yields its last piece and the optional chaining never stops. *)

Definition mime_of_extension (extension : string) : string :=
  if String.eqb extension "pdf" then "application/pdf"
  else if String.eqb extension "docx" then
    "application/vnd.openxmlformats-officedocument.wordprocessingml.document"
  else if String.eqb extension "txt" then "text/plain"
  else "application/octet-stream".

Definition getMimeType (fileName : string) : string :=
  mime_of_extension (toLowerCase (last (split_on "."%char fileName) "")).

(* ------------------------------------------------------------------ *)
(** ** Updates of a stored [QuizResult] ([{...r, field: v}]) *)

Definition with_tags (r : QuizResult) (t : list string) : QuizResult :=
  Build_QuizResult (id r) (result_quiz r) (result_settings r) (userAnswers r)
    (score r) (timeTaken r) (folderId r) t.

Definition with_folderId (r : QuizResult) (f : string) : QuizResult :=
  Build_QuizResult (id r) (result_quiz r) (result_settings r) (userAnswers r)
    (score r) (timeTaken r) f (tags r).

(* ------------------------------------------------------------------ *)
(** ** The tag editor of [ResultsScreen] (src/components/ResultsScreen.tsx) *)

Module ResultsScreen.

(** The initial text of the tag input: [result.tags.join(', ')]. *)
Definition tags_input (result : QuizResult) : string := join ", " (tags result).

(** [tags.split(',').map(t => t.trim()).filter(Boolean)]: an empty string
    is the only falsy string. *)
Definition parse_tags (input : string) : list string :=
  filter (fun t => negb (String.eqb t "")) (map trim (split_on ","%char input)).

(** [handleTagSave] (lines 31-33), applied to the stored results. *)
Definition handleTagSave (result : QuizResult) (input : string)
    (prev : list QuizResult) : list QuizResult :=
  map (fun r => if String.eqb (id r) (id result) then with_tags r (parse_tags input) else r)
    prev.

End ResultsScreen.

(* ------------------------------------------------------------------ *)
(** ** [HistoryScreen] (src/components/HistoryScreen.tsx)

    [window.confirm] is the boolean [confirmed].  [Array.prototype.sort]
    returns a permutation of the filtered array; the statements below hold
    for every permutation, so the comparator is not modelled. *)

Module HistoryScreen.

Record Folder : Type := {
  folder_id : string;
  name : string
}.

Definition uncategorized : Folder :=
  {| folder_id := "uncategorized"; name := "Uncategorized" |}.

Record State : Type := {
  results : list QuizResult;
  folders : list Folder
}.

(** [handleCreateFolder] (lines 65-72); [now] is [Date.now()]. *)
Definition handleCreateFolder (newFolderName : string) (now : Z)
    (prev : list Folder) : list Folder :=
  if negb (String.eqb (trim newFolderName) "") then
    (prev ++ [{| folder_id := number_toString now; name := trim newFolderName |}])%list
  else prev.

(** [handleDeleteResult] (lines 74-78). *)
Definition handleDeleteResult (confirmed : bool) (rid : string)
    (prev : list QuizResult) : list QuizResult :=
  if confirmed then filter (fun r => negb (String.eqb (id r) rid)) prev else prev.

(** [handleDeleteAll] (lines 80-85). *)
Definition handleDeleteAll (confirmed : bool) (h : State) : State :=
  if confirmed then {| results := []; folders := [uncategorized] |} else h.

(** [handleMoveResult] (lines 87-91). *)
Definition handleMoveResult (resultId targetFolderId : string)
    (prev : list QuizResult) : list QuizResult :=
  map (fun r => if String.eqb (id r) resultId then with_folderId r targetFolderId else r)
    prev.

(** The search test of [filteredResults] (lines 32-35). *)
Definition matches_search (searchTerm : string) (r : QuizResult) : bool :=
  contains (toLowerCase (topic (result_quiz r))) (toLowerCase searchTerm)
  || existsb (fun tag => contains (toLowerCase tag) (toLowerCase searchTerm)) (tags r).

(** The two [filter] calls of [filteredResults] (lines 30-35), before the
    [sort]. *)
Definition filtered_unsorted (activeFolderId searchTerm : string)
    (rs : list QuizResult) : list QuizResult :=
  filter (matches_search searchTerm)
    (filter (fun r => String.eqb (folderId r) activeFolderId) rs).

(** The folder and result updates of the screen. *)
Inductive event : Type :=
| CreateFolder (newFolderName : string) (now : Z)
| DeleteResult (confirmed : bool) (rid : string)
| DeleteAll (confirmed : bool)
| MoveResult (resultId targetFolderId : string).

Definition step (h : State) (e : event) : State :=
  match e with
  | CreateFolder n t => {| results := results h; folders := handleCreateFolder n t (folders h) |}
  | DeleteResult c rid => {| results := handleDeleteResult c rid (results h); folders := folders h |}
  | DeleteAll c => handleDeleteAll c h
  | MoveResult rid f => {| results := handleMoveResult rid f (results h); folders := folders h |}
  end.

End HistoryScreen.

(* ------------------------------------------------------------------ *)
(** ** Further handlers of [App] and [QuizScreen] *)

(** [handleRetakeQuiz] (App.tsx lines 132-136): [navigate('quiz')]. *)
Definition handleRetakeQuiz (result : QuizResult) (a : App.State) : App.State :=
  {| App.screen := App.screen a; App.hash := App.QuizS;
     App.currentQuiz := Some (result_quiz result, result_settings result);
     App.quizResults := App.quizResults a; App.now := App.now a;
     App.quizScreen := App.quizScreen a |}.

(** [goToNext] and [goToPrev] (icons.tsx lines 154-155); [skipQuestion]
    is [goToNext]. *)
Definition goToNext (s : QuizScreen.State) : QuizScreen.event :=
  QuizScreen.ChangeQuestion (Z.of_nat (QuizScreen.currentQuestionIndex s) + 1).

Definition goToPrev (s : QuizScreen.State) : QuizScreen.event :=
  QuizScreen.ChangeQuestion (Z.of_nat (QuizScreen.currentQuestionIndex s) - 1).

(* ------------------------------------------------------------------ *)
(** ** Inputs for the further properties *)

(** [trim_start] on the list of code units of a string. *)
Fixpoint drop_space (l : list ascii) : list ascii :=
  match l with
  | [] => []
  | c :: rest => if is_js_space c then drop_space rest else l
  end.

(** A stored result of [sample_quiz]. *)
Definition sample_result : QuizResult :=
  Build_QuizResult "1760000000000" sample_quiz sample_settings [Some "Carbon dioxide"]
    1 42 "uncategorized" ["biology"].

(** The app on the results screen, with no quiz loaded. *)
Definition results_app : App.State :=
  {| App.screen := App.Results; App.hash := App.Results; App.currentQuiz := None;
     App.quizResults := [sample_result]; App.now := 1760000100000;
     App.quizScreen := None |}.

(** A provider that answers with five strings, and echoes single texts. *)
Definition five_string_provider : Provider :=
  {| translate_array := fun _ _ =>
       Some (JObj [("translations", JArr (map JStr ["Quel gaz ?"; "Oxygene";
                     "Dioxyde de carbone"; "Azote"; "Helium"]))]);
     translate_single := fun t _ => Some t |}.

Definition sample_fill_question : Question :=
  {| questionText := "Plants make ___ from light."; questionType := fill_in_the_blank;
     options := []; correctAnswer := "glucose"; explanation := "" |}.

(** The state right after a one-question fill-in-the-blank quiz mounts. *)
Definition sample_fill_state : QuizScreen.State :=
  fst (QuizScreen.run_effect
         (QuizScreen.initial {| topic := "Photosynthesis"; questions := [sample_fill_question] |}
            sample_settings)).

Definition sample_history : HistoryScreen.State :=
  {| HistoryScreen.results := [sample_result];
     HistoryScreen.folders := [HistoryScreen.uncategorized] |}.

(** A three-question quiz of two minutes. *)
Definition organelle_question : Question :=
  {| questionText := "Where does photosynthesis take place?"; questionType := multiple_choice;
     options := ["Chloroplast"; "Nucleus"; "Ribosome"; "Vacuole"];
     correctAnswer := "Chloroplast"; explanation := "" |}.

Definition product_question : Question :=
  {| questionText := "Which gas do plants release?"; questionType := multiple_choice;
     options := ["Oxygen"; "Argon"; "Neon"; "Helium"];
     correctAnswer := "Oxygen"; explanation := "" |}.

Definition three_quiz : Quiz :=
  {| topic := "Photosynthesis";
     questions := [sample_question; organelle_question; product_question] |}.

Definition three_settings : QuizSettings :=
  {| settings_topic := "Photosynthesis"; documentContent := None; numQuestions := 3;
     settings_questionType := MultipleChoice; difficulty := Easy; duration := 2;
     language := "" |}.

(** A stored result of [three_quiz], with another id. *)
Definition three_result : QuizResult :=
  Build_QuizResult "1760000050000" three_quiz three_settings
    [Some "Carbon dioxide"; Some "Nucleus"; None] 1 45 "uncategorized" [].

(** The screen state after a sequence of events. *)
Definition run_events (s : QuizScreen.State) (es : list QuizScreen.event) : QuizScreen.State :=
  fold_left (fun s e => fst (QuizScreen.step s e)) es s.

(** [three_quiz] mounted; the first question answered right, the second
    wrong, the third left unanswered, after 45 seconds. *)
Definition answered_state : QuizScreen.State :=
  run_events (fst (QuizScreen.run_effect (QuizScreen.initial three_quiz three_settings)))
    ([QuizScreen.AnswerChange "Carbon dioxide"; QuizScreen.ChangeQuestion 1;
      QuizScreen.AnswerChange "Nucleus"] ++ repeat QuizScreen.Tick 45)%list.

(* ------------------------------------------------------------------ *)
(** ** Facts about property reads and writes *)

Lemma lookup_assign_same (ps : list (string * json)) (k : string) (v : json) :
  lookup (assign ps k v) k = Val v.
Proof.
  induction ps as [| [k' w] ps IH]; simpl.
  - rewrite String.eqb_refl. reflexivity.
  - destruct (String.eqb k k') eqn:E; simpl.
    + apply String.eqb_eq in E. subst. rewrite String.eqb_refl. reflexivity.
    + rewrite E. exact IH.
Qed.

Lemma lookup_assign_other (ps : list (string * json)) (k k' : string) (v : json) :
  String.eqb k' k = false -> lookup (assign ps k v) k' = lookup ps k'.
Proof.
  intros Hne. induction ps as [| [k0 w] ps IH]; simpl.
  - rewrite Hne. reflexivity.
  - destruct (String.eqb k k0) eqn:E; simpl.
    + apply String.eqb_eq in E. subst. rewrite Hne. reflexivity.
    + destruct (String.eqb k' k0); [reflexivity | exact IH].
Qed.

Lemma assign_assign_same (ps : list (string * json)) (k : string) (v w : json) :
  assign (assign ps k v) k w = assign ps k w.
Proof.
  induction ps as [| [k0 x] ps IH]; simpl.
  - rewrite String.eqb_refl. reflexivity.
  - destruct (String.eqb k k0) eqn:E; simpl; rewrite E; [reflexivity | now rewrite IH].
Qed.

Lemma assign_lookup_id (ps : list (string * json)) (k : string) (v : json) :
  lookup ps k = Val v -> assign ps k v = ps.
Proof.
  induction ps as [| [k0 x] ps IH]; simpl; intros H.
  - discriminate.
  - destruct (String.eqb k k0) eqn:E.
    + inversion H; subst. reflexivity.
    + now rewrite IH.
Qed.

Lemma prop_set_prop_other (o : json) (k k' : string) (v : json) :
  String.eqb k' k = false -> prop (set_prop o k v) k' = prop o k'.
Proof.
  intros Hne. destruct o; try reflexivity.
  simpl. now rewrite lookup_assign_other.
Qed.

Lemma prop_val_obj (o : json) (k : string) (v : json) :
  prop o k = inr (Val v) -> exists ps, o = JObj ps /\ lookup ps k = Val v.
Proof.
  destruct o; simpl; intros H; try discriminate.
  injection H as H. eauto.
Qed.

Lemma prop_set_prop_same (o : json) (k : string) (v w : json) :
  prop o k = inr (Val w) -> prop (set_prop o k v) k = inr (Val v).
Proof.
  intros H. apply prop_val_obj in H as [ps [-> _]].
  simpl. now rewrite lookup_assign_same.
Qed.

Lemma set_prop_set_prop_same (o : json) (k : string) (v w : json) :
  set_prop (set_prop o k v) k w = set_prop o k w.
Proof.
  destruct o; try reflexivity. simpl. now rewrite assign_assign_same.
Qed.

(** The loop succeeds exactly when every iteration does. *)
Lemma validate_questions_ok (qs qs' : list json) :
  validate_questions qs = inr qs' ->
  Forall2 (fun q q' => validate_question q = inr q') qs qs'.
Proof.
  revert qs'. induction qs as [| q qs IH]; simpl; intros qs' H.
  - inversion H. constructor.
  - destruct (validate_question q) as [e | q'] eqn:Hq; [discriminate |].
    destruct (validate_questions qs) as [e | rest'] eqn:Hr; [discriminate |].
    inversion H; subst. constructor; auto.
Qed.

Lemma validate_questions_fails (qs : list json) (q : json) (e : gen_error) :
  In q qs -> validate_question q = inl e ->
  exists e', validate_questions qs = inl e'.
Proof.
  induction qs as [| q0 qs IH]; simpl; intros Hin Hq; [contradiction |].
  destruct Hin as [<- | Hin].
  - rewrite Hq. eauto.
  - destruct (validate_question q0); [eauto |].
    destruct (IH Hin Hq) as [e' ->]. eauto.
Qed.

Lemma validate_ok (c out : json) :
  validate c = inr out ->
  exists qs qs', prop c "questions" = inr (Val (JArr qs)) /\
    validate_questions qs = inr qs' /\
    out = set_prop c "questions" (JArr qs') /\
    prop out "questions" = inr (Val (JArr qs')).
Proof.
  unfold validate. intros H.
  destruct (prop c "questions") as [e | [| v]] eqn:Hc; try discriminate.
  destruct v; try discriminate.
  destruct (validate_questions items) as [e | qs'] eqn:Hv; [discriminate |].
  inversion H; subst.
  exists items, qs'. repeat split; auto.
  eapply prop_set_prop_same. exact Hc.
Qed.

(** The validator reads three properties of a question and never
    [questionText]. *)
Lemma validate_question_ignores_text (q v : json) :
  error_of (validate_question (set_prop q "questionText" v))
  = error_of (validate_question q).
Proof.
  unfold validate_question.
  rewrite !prop_set_prop_other by reflexivity.
  destruct (prop q "questionType") as [e | qt]; [reflexivity |].
  destruct (is_str qt "multiple_choice").
  - destruct (prop q "options") as [e | [| []]]; try reflexivity.
    destruct (negb (Nat.eqb (length items) 4) || existsb bad_option items);
      [reflexivity |].
    destruct (prop q "correctAnswer") as [e | ca]; [reflexivity |].
    destruct (includes items ca); reflexivity.
  - destruct (is_str qt "fill_in_the_blank"); reflexivity.
Qed.

Lemma validate_questions_ignore_text (qs : list json) (v : json) :
  error_of (validate_questions (map (fun q => set_prop q "questionText" v) qs))
  = error_of (validate_questions qs).
Proof.
  induction qs as [| q qs IH]; simpl; [reflexivity |].
  pose proof (validate_question_ignores_text q v) as Hq.
  destruct (validate_question (set_prop q "questionText" v)) as [e1 | q1];
  destruct (validate_question q) as [e2 | q2]; simpl in Hq; try discriminate.
  - exact Hq.
  - destruct (validate_questions (map _ qs)) as [e3 | r3];
    destruct (validate_questions qs) as [e4 | r4]; simpl in IH; try discriminate;
    simpl; congruence.
Qed.

Lemma Forall2_Forall_r {A B} (R : A -> B -> Prop) (P : B -> Prop) l l' :
  Forall2 R l l' -> (forall x y, R x y -> P y) -> Forall P l'.
Proof. induction 1 as [| x y l l' Hxy _ IH]; intros HP; constructor; eauto. Qed.

Lemma bad_option_false (o : json) :
  bad_option o = false <-> exists s, o = JStr s /\ trim s <> "".
Proof.
  destruct o; simpl; split; intros H; try discriminate;
    try (destruct H as [? [? _]]; discriminate).
  - exists s. split; [reflexivity |]. intros E. rewrite E in H. discriminate.
  - destruct H as [x [Hx Ht]]. injection Hx as <-.
    now apply String.eqb_neq.
Qed.

Lemma options_check_spec (opts : list json) :
  negb (Nat.eqb (length opts) 4) || existsb bad_option opts = false
  <-> spec_options_valid opts.
Proof.
  unfold spec_options_valid.
  rewrite Bool.orb_false_iff, Bool.negb_false_iff, Nat.eqb_eq.
  assert (existsb bad_option opts = false <->
          Forall (fun o => exists s, o = JStr s /\ trim s <> "") opts) as ->.
  { induction opts as [| o opts IH]; simpl.
    - split; auto.
    - rewrite Bool.orb_false_iff, Forall_cons_iff, bad_option_false, IH.
      tauto. }
  tauto.
Qed.

Lemma includes_answer_in (opts : list json) (ca : jsv) :
  Forall (fun o => exists s, o = JStr s /\ trim s <> "") opts ->
  includes opts ca = true <-> answer_in opts ca.
Proof.
  unfold includes, answer_in. intros Hall. rewrite existsb_exists. split.
  - intros [o [Hin Hsv]].
    rewrite Forall_forall in Hall. destruct (Hall o Hin) as [s [-> _]].
    destruct ca as [| []]; simpl in Hsv; try discriminate.
    apply String.eqb_eq in Hsv. subst. eauto.
  - intros [s [-> Hin]]. exists (JStr s). split; [exact Hin |].
    simpl. apply String.eqb_refl.
Qed.

Lemma is_str_val (v : jsv) (s : string) : is_str v s = true -> v = Val (JStr s).
Proof.
  destruct v as [| []]; simpl; intros H; try discriminate.
  apply String.eqb_eq in H. now subst.
Qed.

(** What one successful iteration leaves behind, by question type. *)
Lemma validate_question_mc (q q' : json) :
  validate_question q = inr q' ->
  prop q' "questionType" = inr (Val (JStr "multiple_choice")) ->
  q' = q /\ exists opts ca, prop q "options" = inr (Val (JArr opts)) /\
    spec_options_valid opts /\ prop q "correctAnswer" = inr ca /\ answer_in opts ca.
Proof.
  unfold validate_question. intros Hv Hqt.
  destruct (prop q "questionType") as [e | qt] eqn:Eqt; [discriminate |].
  destruct (is_str qt "multiple_choice") eqn:Emc.
  - destruct (prop q "options") as [e | [| []]] eqn:Eo; try discriminate.
    destruct (negb (Nat.eqb (length items) 4) || existsb bad_option items) eqn:Ec;
      [discriminate |].
    destruct (prop q "correctAnswer") as [e | ca] eqn:Eca; [discriminate |].
    destruct (includes items ca) eqn:Ein; [| discriminate].
    injection Hv as <-. split; [reflexivity |].
    apply options_check_spec in Ec.
    exists items, ca. split; [reflexivity |]. split; [exact Ec |].
    split; [reflexivity |].
    apply includes_answer_in; [apply (proj2 Ec) | exact Ein].
  - destruct (is_str qt "fill_in_the_blank") eqn:Efb; [| discriminate].
    injection Hv as <-.
    rewrite prop_set_prop_other in Hqt by reflexivity.
    rewrite Eqt in Hqt. injection Hqt as ->. discriminate.
Qed.

Lemma validate_question_fill (q q' : json) :
  validate_question q = inr q' ->
  prop q' "questionType" = inr (Val (JStr "fill_in_the_blank")) ->
  prop q' "options" = inr (Val (JArr [])).
Proof.
  unfold validate_question. intros Hv Hqt.
  destruct (prop q "questionType") as [e | qt] eqn:Eqt; [discriminate |].
  destruct (is_str qt "multiple_choice") eqn:Emc.
  - apply is_str_val in Emc. subst qt.
    destruct (prop q "options") as [e | [| []]]; try discriminate.
    destruct (_ || _); [discriminate |].
    destruct (prop q "correctAnswer") as [e | ca]; [discriminate |].
    destruct (includes items ca); [| discriminate].
    injection Hv as <-. congruence.
  - destruct (is_str qt "fill_in_the_blank") eqn:Efb; [| discriminate].
    injection Hv as <-. apply is_str_val in Efb. subst qt.
    apply prop_val_obj in Eqt as [ps [-> _]].
    simpl. now rewrite lookup_assign_same.
Qed.

Lemma validate_question_fill_input (q : json) :
  prop q "questionType" = inr (Val (JStr "fill_in_the_blank")) ->
  validate_question q = inr (set_prop q "options" (JArr [])).
Proof.
  intros H. unfold validate_question. rewrite H. reflexivity.
Qed.

(* ------------------------------------------------------------------ *)
(** ** Claims about the validator of [generateQuiz] *)

(** C1 (counterexample): a candidate whose [questions] is the empty array
    passes validation unchanged, so [generateQuiz] returns a quiz with no
    question instead of failing. *)
Lemma C1_empty_questions_accepted :
  validate (candidate []) = inr (candidate []).
Proof. reflexivity. Qed.

(** C1 (amended): the only check on [questions] as a whole is that it is
    an array; an empty array is accepted and returned unchanged, and any
    other value (missing, [null], a string, an object, ...) is rejected
    with the missing-array error. *)
Theorem C1_questions_only_checked_to_be_an_array (c : json) :
  (prop c "questions" = inr (Val (JArr [])) -> validate c = inr c) /\
  (forall v, prop c "questions" = inr v -> (forall qs, v <> Val (JArr qs)) ->
     validate c = inl ErrMissingQuestions).
Proof.
  split.
  - intros H. unfold validate. rewrite H. simpl.
    apply prop_val_obj in H as [ps [-> Hl]].
    simpl. now rewrite assign_lookup_id.
  - intros v H Hnot. unfold validate. rewrite H.
    destruct v as [| []]; try reflexivity.
    exfalso. exact (Hnot items eq_refl).
Qed.

Lemma C1_questions_only_checked_to_be_an_array_witness :
  validate (candidate []) = inr (candidate []) /\
  validate (JObj [("topic", JStr "Photosynthesis")]) = inl ErrMissingQuestions.
Proof.
  split.
  - apply (proj1 (C1_questions_only_checked_to_be_an_array (candidate []))).
    reflexivity.
  - apply (proj2 (C1_questions_only_checked_to_be_an_array
                    (JObj [("topic", JStr "Photosynthesis")])) Undef);
      [reflexivity | intros qs; discriminate].
Defined.

(** C2 (counterexample): a question whose [questionText] is blank, and one
    without any [questionText], are accepted. *)
Lemma C2_blank_question_text_accepted :
  error_of (validate (candidate [fill_question "   " [] "chlorophyll"])) = None /\
  error_of (validate (candidate [JObj [("questionType", JStr "multiple_choice");
                                       ("options", JArr (map JStr ["a"; "b"; "c"; "d"]));
                                       ("correctAnswer", JStr "a")]])) = None.
Proof. split; reflexivity. Qed.

(** C2 (amended): validation never reads [questionText]: giving every
    question any [questionText] at all (blank included) changes neither
    whether the candidate is rejected nor the error it is rejected with. *)
Theorem C2_question_text_never_checked
    (fs : list (string * json)) (qs : list json) (v : json) :
  lookup fs "questions" = Val (JArr qs) ->
  error_of (validate (JObj (assign fs "questions"
              (JArr (map (fun q => set_prop q "questionText" v) qs)))))
  = error_of (validate (JObj fs)).
Proof.
  intros H. unfold validate. simpl. rewrite lookup_assign_same, H.
  pose proof (validate_questions_ignore_text qs v) as Hi.
  destruct (validate_questions (map _ qs)); destruct (validate_questions qs);
    simpl in *; congruence.
Qed.

Lemma C2_question_text_never_checked_witness :
  error_of (validate (JObj (assign [("topic", JStr "Photosynthesis");
                                    ("questions", JArr [fill_question "Fill" [] "x"])]
              "questions"
              (JArr (map (fun q => set_prop q "questionText" (JStr ""))
                       [fill_question "Fill" [] "x"])))))
  = error_of (validate (JObj [("topic", JStr "Photosynthesis");
                              ("questions", JArr [fill_question "Fill" [] "x"])])).
Proof.
  apply C2_question_text_never_checked. reflexivity.
Defined.

(** C4 (counterexample): a multiple-choice question whose four options
    repeat a string is accepted. *)
Lemma C4_duplicate_options_accepted :
  let c := candidate [mc_question "Pick one" ["a"; "a"; "b"; "c"] "a"] in
  validate c = inr c.
Proof. reflexivity. Qed.

(** C4 (amended): every multiple-choice question of an accepted quiz has
    exactly 4 options, each a non-blank string, and a [correctAnswer]
    equal to one of them; the options need not be distinct. *)
Theorem C4_accepted_mc_options (c out : json) :
  validate c = inr out ->
  exists qs', prop out "questions" = inr (Val (JArr qs')) /\
    Forall (fun q => prop q "questionType" = inr (Val (JStr "multiple_choice")) ->
              exists opts ca, prop q "options" = inr (Val (JArr opts)) /\
                spec_options_valid opts /\ prop q "correctAnswer" = inr ca /\
                answer_in opts ca) qs'.
Proof.
  intros H. apply validate_ok in H as [qs [qs' [_ [Hv [_ Hout]]]]].
  exists qs'. split; [exact Hout |].
  apply validate_questions_ok in Hv.
  eapply Forall2_Forall_r; [exact Hv |].
  intros q q' Hq Hmc.
  destruct (validate_question_mc q q' Hq Hmc) as [-> Hrest]. exact Hrest.
Qed.

Lemma C4_accepted_mc_options_witness :
  exists out, validate (candidate [mc_question "Pick one" ["a"; "a"; "b"; "c"] "a"]) = inr out /\
  exists qs', prop out "questions" = inr (Val (JArr qs')) /\
    Forall (fun q => prop q "questionType" = inr (Val (JStr "multiple_choice")) ->
              exists opts ca, prop q "options" = inr (Val (JArr opts)) /\
                spec_options_valid opts /\ prop q "correctAnswer" = inr ca /\
                answer_in opts ca) qs'.
Proof.
  eexists. split; [reflexivity |].
  apply (C4_accepted_mc_options (candidate [mc_question "Pick one" ["a"; "a"; "b"; "c"] "a"])).
  reflexivity.
Defined.

(** C5: for a multiple-choice question, options that are not an array of
    exactly 4 non-blank strings give the invalid-options error, then a
    [correctAnswer] equal to none of them gives the answer-not-in-options
    error, and a question passing both rules passes the iteration; a
    question that fails makes the whole candidate fail. *)
Theorem C5_mc_rules (q : json) :
  prop q "questionType" = inr (Val (JStr "multiple_choice")) ->
  ((~ exists opts, prop q "options" = inr (Val (JArr opts)) /\ spec_options_valid opts) ->
     validate_question q = inl ErrInvalidOptions) /\
  (forall opts ca, prop q "options" = inr (Val (JArr opts)) -> spec_options_valid opts ->
     prop q "correctAnswer" = inr ca ->
     (~ answer_in opts ca -> validate_question q = inl ErrAnswerNotInOptions) /\
     (answer_in opts ca -> validate_question q = inr q)) /\
  (forall c qs e, prop c "questions" = inr (Val (JArr qs)) -> In q qs ->
     validate_question q = inl e -> exists e', validate c = inl e').
Proof.
  intros Hmc. split; [| split].
  - intros Hnot. unfold validate_question. rewrite Hmc. simpl.
    destruct (prop q "options") as [e | [| []]] eqn:Eo; try reflexivity.
    + apply prop_val_obj in Hmc as [ps [-> _]]. discriminate.
    + destruct (negb (Nat.eqb (length items) 4) || existsb bad_option items) eqn:Ec;
        [reflexivity |].
      exfalso. apply Hnot. exists items. split; [reflexivity |].
      now apply options_check_spec.
  - intros opts ca Eo Hv Eca.
    assert (Hc : negb (Nat.eqb (length opts) 4) || existsb bad_option opts = false)
      by now apply options_check_spec.
    pose proof (includes_answer_in opts ca (proj2 Hv)) as Hin.
    unfold validate_question. rewrite Hmc. simpl. rewrite Eo, Hc, Eca.
    split; intros Ha.
    + destruct (includes opts ca) eqn:Ei; [| reflexivity].
      exfalso. apply Ha, Hin. reflexivity.
    + apply Hin in Ha. now rewrite Ha.
  - intros c qs e Hc Hin Hq.
    destruct (validate_questions_fails qs q e Hin Hq) as [e' He'].
    exists e'. unfold validate. now rewrite Hc, He'.
Qed.

Lemma C5_mc_rules_witness :
  validate_question (mc_question "Pick" ["a"; "b"; "c"] "a") = inl ErrInvalidOptions /\
  validate_question (mc_question "Pick" ["a"; "b"; "c"; "d"] "A") = inl ErrAnswerNotInOptions /\
  validate_question (mc_question "Pick" ["a"; "b"; "c"; "d"] "a")
    = inr (mc_question "Pick" ["a"; "b"; "c"; "d"] "a").
Proof.
  assert (Hv : spec_options_valid (map JStr ["a"; "b"; "c"; "d"])).
  { split; [reflexivity |].
    repeat constructor; eexists; (split; [reflexivity | discriminate]). }
  split; [| split].
  - apply (proj1 (C5_mc_rules (mc_question "Pick" ["a"; "b"; "c"] "a") eq_refl)).
    intros [opts [Eo [Hlen _]]]. simpl in Eo. injection Eo as <-. discriminate.
  - pose proof (proj1 (proj2 (C5_mc_rules (mc_question "Pick" ["a"; "b"; "c"; "d"] "A")
                                         eq_refl))) as H.
    destruct (H (map JStr ["a"; "b"; "c"; "d"]) (Val (JStr "A")) eq_refl Hv eq_refl)
      as [H1 _].
    apply H1. intros [s [Hs Hin]]. injection Hs as <-. simpl in Hin.
    repeat (destruct Hin as [Hin | Hin]; [discriminate |]). exact Hin.
  - pose proof (proj1 (proj2 (C5_mc_rules (mc_question "Pick" ["a"; "b"; "c"; "d"] "a")
                                         eq_refl))) as H.
    destruct (H (map JStr ["a"; "b"; "c"; "d"]) (Val (JStr "a")) eq_refl Hv eq_refl)
      as [_ H2].
    apply H2. exists "a". split; [reflexivity | left; reflexivity].
Defined.

(** C6: in an accepted quiz every fill-in-the-blank question has an empty
    [options] array, and a fill-in-the-blank question passes its iteration
    whatever [options] it carried, with the same outcome as if it had
    carried none. *)
Theorem C6_fill_options_forced_empty :
  (forall c out, validate c = inr out ->
     exists qs', prop out "questions" = inr (Val (JArr qs')) /\
       Forall (fun q => prop q "questionType" = inr (Val (JStr "fill_in_the_blank")) ->
                 prop q "options" = inr (Val (JArr []))) qs') /\
  (forall q opts, prop q "questionType" = inr (Val (JStr "fill_in_the_blank")) ->
     validate_question (set_prop q "options" opts) = inr (set_prop q "options" (JArr [])) /\
     validate_question (set_prop q "options" opts) = validate_question q).
Proof.
  split.
  - intros c out H. apply validate_ok in H as [qs [qs' [_ [Hv [_ Hout]]]]].
    exists qs'. split; [exact Hout |].
    apply validate_questions_ok in Hv.
    eapply Forall2_Forall_r; [exact Hv |].
    intros q q' Hq Hfb. exact (validate_question_fill q q' Hq Hfb).
  - intros q opts H.
    assert (H' : prop (set_prop q "options" opts) "questionType"
                 = inr (Val (JStr "fill_in_the_blank")))
      by (rewrite prop_set_prop_other by reflexivity; exact H).
    rewrite (validate_question_fill_input _ H'), (validate_question_fill_input _ H).
    rewrite set_prop_set_prop_same. split; reflexivity.
Qed.

Lemma C6_fill_options_forced_empty_witness :
  validate (candidate [fill_question "Plants make ___" ["x"; "y"] "glucose"])
  = inr (candidate [fill_question "Plants make ___" [] "glucose"]) /\
  validate_question (set_prop (fill_question "Q" [] "a") "options" (JArr [JStr "x"]))
  = inr (fill_question "Q" [] "a").
Proof.
  split.
  - reflexivity.
  - apply (proj1 (proj2 C6_fill_options_forced_empty (fill_question "Q" [] "a")
                   (JArr [JStr "x"]) eq_refl)).
Defined.

(* ------------------------------------------------------------------ *)
(** ** The [QuizScreen] session: invariants of the reachable states *)

Module SessionFacts.
Import QuizScreen.

Lemma set_timer_twice (s : State) (a b : bool) :
  set_timer (set_timer s a) b = set_timer s b.
Proof. destruct s; reflexivity. Qed.

Lemma set_translation_twice (s : State) a b c a' b' c' :
  set_translation (set_translation s a b c) a' b' c' = set_translation s a' b' c'.
Proof. destruct s; reflexivity. Qed.

Lemma handleSubmit_fst (s : State) : fst (handleSubmit s) = set_timer s false.
Proof. unfold handleSubmit. destruct (reduce_score _ _ _ _); reflexivity. Qed.

Lemma run_effect_fst (s : State) :
  fst (run_effect s) = set_timer s (negb (isPaused s) && Z.ltb 0 (timeLeft s)).
Proof.
  unfold run_effect. simpl.
  destruct (isPaused s); simpl; [reflexivity |].
  rewrite Z.ltb_antisym.
  destruct (Z.leb (timeLeft s) 0); simpl.
  - rewrite handleSubmit_fst. apply set_timer_twice.
  - apply set_timer_twice.
Qed.

Lemma handleSubmit_emit (s s' : State) (r : QuizResult) :
  handleSubmit s = (s', Some r) ->
  s' = set_timer s false /\
  reduce_score (userAnswers s) (questions (quiz s)) 0 0 = Some (score r) /\
  r = Build_QuizResult "" (quiz s) (settings s) (userAnswers s) (score r)
        (duration (settings s) * 60 - timeLeft s) "uncategorized" [].
Proof.
  unfold handleSubmit. destruct (reduce_score _ _ _ _) as [sc |] eqn:E;
    intros H; inversion H; subst; auto.
Qed.

Lemma run_effect_emit (s s' : State) (r : QuizResult) :
  run_effect s = (s', Some r) -> handleSubmit (set_timer s false) = (s', Some r).
Proof.
  unfold run_effect. simpl. destruct (isPaused s); [discriminate |].
  destruct (Z.leb (timeLeft s) 0); [auto | discriminate].
Qed.

Lemma step_emit (s s' : State) (e : event) (r : QuizResult) :
  step s e = (s', Some r) -> exists s0, handleSubmit s0 = (s', Some r).
Proof.
  destruct e; simpl; intros H.
  - destruct (timerActive s); [| discriminate].
    apply run_effect_emit in H. eauto.
  - apply run_effect_emit in H. eauto.
  - apply run_effect_emit in H. eauto.
  - destruct (_ && _); discriminate.
  - eauto.
  - discriminate.
Qed.

Lemma handleTranslate_fst (s : State) (lang : string) (p : Provider) :
  exists tc, fst (handleTranslate s lang p) = set_translation s false false tc.
Proof.
  unfold handleTranslate.
  destruct (nth_error (questions (quiz s)) (currentQuestionIndex s)) as [q |].
  - destruct (questionType q).
    + destruct (translateText_array p (translate_texts q) lang) as [ts |].
      * destruct (Nat.eqb (length ts) (length (translate_texts q))).
        -- destruct ts; simpl; eexists; rewrite !set_translation_twice; reflexivity.
        -- simpl. eexists. rewrite !set_translation_twice. reflexivity.
      * simpl. eexists. rewrite !set_translation_twice. reflexivity.
    + destruct (translate_single p (questionText q) lang);
        simpl; eexists; rewrite !set_translation_twice; reflexivity.
  - simpl. eexists. rewrite !set_translation_twice. reflexivity.
Qed.

Lemma array_set_length {A} (l : list A) (i : nat) (v : A) :
  length (array_set l i v) = length l.
Proof.
  revert i. induction l as [| x l IH]; intros [| i]; simpl; auto.
Qed.

(** The invariant of a mounted [QuizScreen]. *)
Definition Inv (s : State) : Prop :=
  length (userAnswers s) = length (questions (quiz s)) /\
  (currentQuestionIndex s < length (questions (quiz s)))%nat /\
  (isPaused s = true -> timerActive s = false) /\
  (timeLeft s <= duration (settings s) * 60)%Z /\
  (timerActive s = true -> 0 < timeLeft s)%Z.

Lemma Inv_set_timer (s : State) (b : bool) :
  Inv s -> (isPaused s = true -> b = false) -> (b = true -> 0 < timeLeft s)%Z ->
  Inv (set_timer s b).
Proof. unfold Inv. destruct s; simpl. intuition. Qed.

Lemma Inv_run_effect (s : State) :
  length (userAnswers s) = length (questions (quiz s)) ->
  (currentQuestionIndex s < length (questions (quiz s)))%nat ->
  (timeLeft s <= duration (settings s) * 60)%Z ->
  Inv (fst (run_effect s)).
Proof.
  intros H1 H2 H3. rewrite run_effect_fst.
  unfold Inv. destruct s as [q st i ans t p tr m tc tm]; simpl in *.
  repeat split; auto.
  - intros ->. reflexivity.
  - intros Hb. apply andb_prop in Hb as [_ Hb]. now apply Z.ltb_lt.
Qed.

Lemma Inv_step (s : State) (e : event) : Inv s -> Inv (fst (step s e)).
Proof.
  intros HI. pose proof HI as [H1 [H2 [H3 [H4 H5]]]].
  destruct e; simpl.
  - destruct (timerActive s) eqn:Et; [| exact HI].
    apply Inv_run_effect; destruct s; simpl in *; auto.
    specialize (H5 eq_refl). lia.
  - apply Inv_run_effect; destruct s; simpl in *; auto.
  - apply Inv_run_effect; destruct s; simpl in *; auto.
    rewrite array_set_length. exact H1.
  - destruct (Z.leb 0 newIndex && Z.ltb newIndex _) eqn:Eg; [| exact HI].
    apply andb_prop in Eg as [Ea Eb]. apply Z.leb_le in Ea. apply Z.ltb_lt in Eb.
    unfold Inv. destruct s; simpl in *. repeat split; auto. lia.
  - rewrite handleSubmit_fst. apply Inv_set_timer; auto; discriminate.
  - destruct (handleTranslate_fst s language0 p) as [tc ->].
    unfold Inv. destruct s; simpl in *. auto.
Qed.

Lemma Inv_mount (q : Quiz) (st : QuizSettings) s r :
  mount q st = Some (s, r) -> Inv s.
Proof.
  unfold mount. destruct (questions q) as [| q0 qs] eqn:Eq; [discriminate |].
  intros H. injection H as H.
  replace s with (fst (run_effect (initial q st))) by now rewrite H.
  apply Inv_run_effect; simpl; rewrite ?repeat_length, ?Eq; simpl; lia.
Qed.

Theorem reachable_invariant (s : State) : reachable s -> Inv s.
Proof.
  induction 1 as [q st s r Hm | s e _ IH].
  - eapply Inv_mount. exact Hm.
  - now apply Inv_step.
Qed.

(** A result passed to [onComplete] is computed by [handleSubmit] in the
    state the component is left in, up to the interval handle. *)
Lemma emits_handleSubmit (r : QuizResult) (s' : State) :
  emits r s' -> reachable s' /\ exists s0, handleSubmit s0 = (s', Some r).
Proof.
  intros [q st s1 r1 Hm | s e s1 r1 Hr Hs].
  - split; [eapply reach_mount; exact Hm |].
    unfold mount in Hm. destruct (questions q); [discriminate |].
    injection Hm as Hm. apply run_effect_emit in Hm. eauto.
  - split.
    + replace s1 with (fst (step s e)) by now rewrite Hs. now constructor.
    + eapply step_emit. exact Hs.
Qed.

End SessionFacts.

Lemma reduce_score_spec (l : list (option string)) (qs pre : list Question) (acc : nat) :
  (length l <= length qs)%nat ->
  QuizScreen.reduce_score l (pre ++ qs)%list (length pre) acc = Some (acc + spec_score l qs)%nat.
Proof.
  revert qs pre acc. induction l as [| a l IH]; intros qs pre acc Hlen.
  - simpl. f_equal. unfold spec_score. destruct qs; simpl; lia.
  - destruct qs as [| q qs]; simpl in Hlen; [lia |].
    simpl. rewrite nth_error_app2 by lia. rewrite Nat.sub_diag. simpl.
    replace (pre ++ q :: qs)%list with ((pre ++ [q]) ++ qs)%list
      by (rewrite <- app_assoc; reflexivity).
    replace (S (length pre)) with (length (pre ++ [q])%list)
      by (rewrite length_app; simpl; lia).
    rewrite IH by lia. f_equal.
    unfold spec_score. simpl. unfold QuizScreen.answer_matches.
    destruct a as [x |]; [destruct (String.eqb x (correctAnswer q)) |]; simpl; lia.
Qed.

Lemma spec_score_le (l : list (option string)) (qs : list Question) :
  (spec_score l qs <= length qs)%nat.
Proof.
  unfold spec_score. revert qs.
  induction l as [| a l IH]; intros [| q qs]; simpl; try lia.
  destruct a as [x |]; [destruct (String.eqb x (correctAnswer q)) |]; simpl;
    specialize (IH qs); lia.
Qed.

(** The fields of an emitted result, read off the state it leaves. *)
Lemma emitted_fields (r : QuizResult) (s' : QuizScreen.State) :
  QuizScreen.emits r s' ->
  SessionFacts.Inv s' /\
  QuizScreen.reduce_score (userAnswers r) (questions (result_quiz r)) 0 0 = Some (score r) /\
  userAnswers r = QuizScreen.userAnswers s' /\
  result_quiz r = QuizScreen.quiz s' /\
  result_settings r = QuizScreen.settings s' /\
  timeTaken r = (duration (result_settings r) * 60 - QuizScreen.timeLeft s')%Z.
Proof.
  intros He. apply SessionFacts.emits_handleSubmit in He as [Hr [s0 Hs]].
  apply SessionFacts.reachable_invariant in Hr.
  apply SessionFacts.handleSubmit_emit in Hs as [-> [Hsc Hr']].
  split; [exact Hr |].
  rewrite Hr'. simpl. destruct s0; simpl in *. auto.
Qed.

(* ------------------------------------------------------------------ *)
(** ** Sessions reached by events *)

Lemma reachable_ticks (n : nat) (s : QuizScreen.State) :
  QuizScreen.reachable s -> QuizScreen.reachable (QuizScreen.ticks n s).
Proof.
  revert s. induction n as [| n IH]; intros s Hr; [exact Hr |].
  apply IH. apply (QuizScreen.reach_step s QuizScreen.Tick Hr).
Qed.

Lemma reachable_run_events (s : QuizScreen.State) (es : list QuizScreen.event) :
  QuizScreen.reachable s -> QuizScreen.reachable (run_events s es).
Proof.
  unfold run_events. revert s. induction es as [| e es IH]; intros s Hr; simpl; [exact Hr |].
  apply IH. apply (QuizScreen.reach_step s e Hr).
Qed.

Lemma answered_state_reachable : QuizScreen.reachable answered_state.
Proof.
  apply reachable_run_events.
  apply (QuizScreen.reach_mount three_quiz three_settings _ None). reflexivity.
Qed.

(* ------------------------------------------------------------------ *)
(** ** Claims about the session *)

(** C7: every result the session emits, whether from the Submit button or
    from the timer reaching zero, has as score the number of indices whose
    answer is a string equal to the question's [correctAnswer] (an
    unanswered [null] never counts), and as [timeTaken] the allotted
    seconds minus [timeLeft], which is never negative. *)
Theorem C7_score_and_time_taken (r : QuizResult) (s' : QuizScreen.State) :
  QuizScreen.emits r s' ->
  score r = spec_score (userAnswers r) (questions (result_quiz r)) /\
  userAnswers r = QuizScreen.userAnswers s' /\
  result_quiz r = QuizScreen.quiz s' /\
  timeTaken r = (duration (result_settings r) * 60 - QuizScreen.timeLeft s')%Z /\
  (0 <= timeTaken r)%Z.
Proof.
  intros He.
  destruct (emitted_fields r s' He) as [[H1 [_ [_ [H4 _]]]] [Hsc [Ha [Hq [Hst Ht]]]]].
  split; [| split; [exact Ha | split; [exact Hq | split; [exact Ht |]]]].
  - pose proof (reduce_score_spec (userAnswers r) (questions (result_quiz r)) [] 0)
      as Hspec.
    simpl in Hspec. rewrite Hspec in Hsc.
    + injection Hsc as Hsc. lia.
    + rewrite Ha, Hq, H1. lia.
  - rewrite Ht, Hst. lia.
Qed.

Lemma C7_score_and_time_taken_witness :
  (exists r s', QuizScreen.step answered_state QuizScreen.SubmitClick = (s', Some r) /\
    score r = 1%nat /\ timeTaken r = 45%Z /\
    score r = spec_score (userAnswers r) (questions (result_quiz r)) /\
    userAnswers r = QuizScreen.userAnswers s' /\
    result_quiz r = QuizScreen.quiz s' /\
    timeTaken r = (duration (result_settings r) * 60 - QuizScreen.timeLeft s')%Z /\
    (0 <= timeTaken r)%Z) /\
  (exists r s', QuizScreen.step (QuizScreen.ticks 74 answered_state) QuizScreen.Tick
                  = (s', Some r) /\
    score r = 1%nat /\ timeTaken r = 120%Z /\
    score r = spec_score (userAnswers r) (questions (result_quiz r)) /\
    userAnswers r = QuizScreen.userAnswers s' /\
    result_quiz r = QuizScreen.quiz s' /\
    timeTaken r = (duration (result_settings r) * 60 - QuizScreen.timeLeft s')%Z /\
    (0 <= timeTaken r)%Z).
Proof.
  split.
  - destruct (QuizScreen.step answered_state QuizScreen.SubmitClick) as [s' [r |]] eqn:E;
      [| vm_compute in E; discriminate E].
    exists r, s'. split; [reflexivity |].
    pose proof (C7_score_and_time_taken r s'
                  (QuizScreen.emits_step answered_state QuizScreen.SubmitClick s' r
                     answered_state_reachable E)) as H.
    assert (Er : Some r = snd (QuizScreen.step answered_state QuizScreen.SubmitClick))
      by now rewrite E.
    vm_compute in Er. injection Er as Er. subst r.
    split; [reflexivity | split; [reflexivity | exact H]].
  - destruct (QuizScreen.step (QuizScreen.ticks 74 answered_state) QuizScreen.Tick)
      as [s' [r |]] eqn:E; [| vm_compute in E; discriminate E].
    exists r, s'. split; [reflexivity |].
    pose proof (C7_score_and_time_taken r s'
                  (QuizScreen.emits_step (QuizScreen.ticks 74 answered_state) QuizScreen.Tick
                     s' r (reachable_ticks 74 answered_state answered_state_reachable) E)) as H.
    assert (Er : Some r = snd (QuizScreen.step (QuizScreen.ticks 74 answered_state)
                                 QuizScreen.Tick))
      by now rewrite E.
    vm_compute in Er. injection Er as Er. subst r.
    split; [reflexivity | split; [reflexivity | exact H]].
Defined.

(** C10: the score of every emitted result lies between 0 and the number
    of questions; [userAnswers] keeps the length of [quiz.questions]. *)
Theorem C10_score_bounded (r : QuizResult) (s' : QuizScreen.State) :
  QuizScreen.emits r s' ->
  (0 <= score r <= length (questions (result_quiz r)))%nat /\
  length (userAnswers r) = length (questions (result_quiz r)).
Proof.
  intros He.
  destruct (emitted_fields r s' He) as [[H1 _] [Hsc [Ha [Hq _]]]].
  assert (Hlen : length (userAnswers r) = length (questions (result_quiz r)))
    by now rewrite Ha, Hq.
  split; [| exact Hlen].
  pose proof (reduce_score_spec (userAnswers r) (questions (result_quiz r)) [] 0)
    as Hspec.
  simpl in Hspec. rewrite Hspec in Hsc by lia. injection Hsc as <-.
  pose proof (spec_score_le (userAnswers r) (questions (result_quiz r))). lia.
Qed.

Lemma C10_score_bounded_witness :
  exists r s', QuizScreen.step answered_state QuizScreen.SubmitClick = (s', Some r) /\
  score r = 1%nat /\ length (questions (result_quiz r)) = 3%nat /\
  (0 <= score r <= length (questions (result_quiz r)))%nat /\
  length (userAnswers r) = length (questions (result_quiz r)).
Proof.
  destruct (QuizScreen.step answered_state QuizScreen.SubmitClick) as [s' [r |]] eqn:E;
    [| vm_compute in E; discriminate E].
  exists r, s'. split; [reflexivity |].
  pose proof (C10_score_bounded r s'
                (QuizScreen.emits_step answered_state QuizScreen.SubmitClick s' r
                   answered_state_reachable E)) as H.
  assert (Er : Some r = snd (QuizScreen.step answered_state QuizScreen.SubmitClick))
    by now rewrite E.
  vm_compute in Er. injection Er as Er. subst r.
  split; [reflexivity | split; [reflexivity | exact H]].
Defined.

Lemma ticks_paused (n : nat) (s : QuizScreen.State) :
  QuizScreen.timerActive s = false -> QuizScreen.ticks n s = s.
Proof.
  intros Ht. induction n as [| n IH]; simpl; [reflexivity |].
  rewrite Ht. exact IH.
Qed.

Lemma ticks_running (k : nat) (s : QuizScreen.State) :
  QuizScreen.isPaused s = false ->
  QuizScreen.timerActive s = Z.ltb 0 (QuizScreen.timeLeft s) ->
  (Z.of_nat k <= QuizScreen.timeLeft s)%Z ->
  QuizScreen.timeLeft (QuizScreen.ticks k s) = (QuizScreen.timeLeft s - Z.of_nat k)%Z.
Proof.
  revert s. induction k as [| k IH]; intros s Hp Ht Hk; simpl; [lia |].
  assert (Ht' : QuizScreen.timerActive s = true) by (rewrite Ht; apply Z.ltb_lt; lia).
  rewrite Ht', SessionFacts.run_effect_fst.
  rewrite IH; destruct s; simpl in *; subst; auto; try lia.
Qed.

(** C8: in a paused session a tick changes nothing at all (no field, no
    emitted result), however many ticks arrive; after resuming, each of
    the next [n] ticks takes one second off the frozen [timeLeft], for
    every [n] up to [timeLeft] (the tick reaching zero submits). *)
Theorem C8_pause_freezes_countdown (s : QuizScreen.State) :
  QuizScreen.reachable s -> QuizScreen.isPaused s = true ->
  QuizScreen.step s QuizScreen.Tick = (s, None) /\
  (forall n, QuizScreen.ticks n s = s) /\
  (forall n : nat, (Z.of_nat n <= QuizScreen.timeLeft s)%Z ->
     QuizScreen.timeLeft (QuizScreen.ticks n (fst (QuizScreen.step s QuizScreen.TogglePause)))
     = (QuizScreen.timeLeft s - Z.of_nat n)%Z).
Proof.
  intros Hr Hp.
  destruct (SessionFacts.reachable_invariant s Hr) as [_ [_ [H3 _]]].
  specialize (H3 Hp).
  split; [| split].
  - simpl. rewrite H3. reflexivity.
  - intros n. now apply ticks_paused.
  - intros n Hn. simpl. rewrite SessionFacts.run_effect_fst.
    rewrite ticks_running; destruct s; simpl in *; subst; auto.
Qed.

Lemma C8_pause_freezes_countdown_witness :
  let paused := fst (QuizScreen.step sample_state QuizScreen.TogglePause) in
  QuizScreen.step paused QuizScreen.Tick = (paused, None) /\
  QuizScreen.ticks 10 paused = paused /\
  QuizScreen.timeLeft (QuizScreen.ticks 10 (fst (QuizScreen.step paused QuizScreen.TogglePause)))
  = (QuizScreen.timeLeft paused - 10)%Z.
Proof.
  intros paused.
  assert (Hr : QuizScreen.reachable paused).
  { apply QuizScreen.reach_step.
    apply (QuizScreen.reach_mount sample_quiz sample_settings sample_state None).
    reflexivity. }
  destruct (C8_pause_freezes_countdown paused Hr eq_refl) as [H1 [H2 H3]].
  split; [exact H1 | split; [apply H2 |]].
  apply (H3 10%nat). vm_compute. discriminate.
Defined.

(** C9: translating a multiple-choice question with four options asks
    the provider for exactly five strings, the question text then the
    options; when the reply holds a [translations] array of any other
    length, the alert is shown, no translation is kept, and nothing else
    of the session changes. *)
Theorem C9_translation_length_mismatch (s : QuizScreen.State) (lang : string)
    (p : Provider) (q : Question) :
  nth_error (questions (QuizScreen.quiz s)) (QuizScreen.currentQuestionIndex s) = Some q ->
  questionType q = multiple_choice -> length (options q) = 4 ->
  QuizScreen.translate_texts q = questionText q :: options q /\
  length (QuizScreen.translate_texts q) = 5 /\
  (forall reply ts, translate_array p (QuizScreen.translate_texts q) lang = Some reply ->
     prop reply "translations" = inr (Val (JArr ts)) -> length ts <> 5 ->
     QuizScreen.handleTranslate s lang p
       = (QuizScreen.set_translation s false false None, true) /\
     QuizScreen.step s (QuizScreen.TranslateTo lang p)
       = (QuizScreen.set_translation s false false None, None)).
Proof.
  intros Hq Hmc Hlen.
  assert (H5 : length (QuizScreen.translate_texts q) = 5)
    by (unfold QuizScreen.translate_texts; simpl; lia).
  split; [reflexivity | split; [exact H5 |]].
  intros reply ts Hp Htr Hts.
  assert (Hfail : translateText_array p (QuizScreen.translate_texts q) lang = None).
  { unfold translateText_array. rewrite Hp, Htr, H5.
    destruct (Nat.eqb (length ts) 5) eqn:E; [| reflexivity].
    apply Nat.eqb_eq in E. contradiction. }
  assert (Ht : QuizScreen.handleTranslate s lang p
               = (QuizScreen.set_translation s false false None, true)).
  { unfold QuizScreen.handleTranslate. rewrite Hq, Hmc, Hfail. simpl.
    rewrite SessionFacts.set_translation_twice. reflexivity. }
  split; [exact Ht |]. simpl. rewrite Ht. reflexivity.
Qed.

Lemma C9_translation_length_mismatch_witness :
  QuizScreen.handleTranslate sample_state "French" four_string_provider
    = (QuizScreen.set_translation sample_state false false None, true) /\
  QuizScreen.step sample_state (QuizScreen.TranslateTo "French" four_string_provider)
    = (QuizScreen.set_translation sample_state false false None, None).
Proof.
  destruct (C9_translation_length_mismatch sample_state "French" four_string_provider
              sample_question eq_refl eq_refl eq_refl) as [_ [_ H]].
  apply (H _ (map JStr ["Quel gaz ?"; "Oxygene"; "Azote"; "Helium"]) eq_refl eq_refl).
  discriminate.
Defined.

(** C3 (code defect): when the clock runs out, the timer effect submits;
    the [setQuizResults] in [handleQuizComplete] re-renders [App], which
    hands [QuizScreen] a new [onComplete], hence a new [handleSubmit], and
    the effect runs again with [timeLeft = 0] before the [hashchange] to
    '#results' unmounts the screen: two results are stored for one
    attempt.  The Submit button path stores one.  [handleSubmit] itself has
    no already-submitted guard. *)
Theorem C3_timer_expiry_stores_two_results :
  let a := App.run sample_app timer_expiry_trace in
  App.screen a = App.Results /\ App.quizScreen a = None /\
  length (App.quizResults a) = 2 /\
  length (App.quizResults (App.run sample_app manual_submit_trace)) = 1 /\
  exists r, snd (QuizScreen.step (fst (QuizScreen.step sample_state QuizScreen.SubmitClick))
                  QuizScreen.SubmitClick) = Some r.
Proof.
  vm_compute. repeat split. eexists. reflexivity.
Qed.

(* ------------------------------------------------------------------ *)
(** ** Facts about the string operations *)

Lemma split_on_nonempty (sep : ascii) (s : string) : split_on sep s <> [].
Proof.
  destruct s as [| c s]; simpl; [discriminate |].
  destruct (Ascii.eqb c sep); [discriminate |].
  destruct (split_on sep s); discriminate.
Qed.

Lemma split_on_other (sep c : ascii) (s : string) :
  Ascii.eqb c sep = false ->
  split_on sep (String c s) =
  match split_on sep s with
  | p :: ps => String c p :: ps
  | [] => [String c EmptyString]
  end.
Proof. intros H. simpl. now rewrite H. Qed.

(** Splitting at a separator splits the two sides independently. *)
Lemma split_on_sep_app (sep : ascii) (a b : string) :
  split_on sep (a ++ String sep b) = (split_on sep a ++ split_on sep b)%list.
Proof.
  induction a as [| c a IH]; simpl.
  - rewrite Ascii.eqb_refl. reflexivity.
  - rewrite IH. destruct (Ascii.eqb c sep); [reflexivity |].
    destruct (split_on sep a) eqn:E;
      [exfalso; exact (split_on_nonempty sep a E) | reflexivity].
Qed.

Lemma split_on_no_sep (sep : ascii) (s : string) :
  has_char sep s = false -> split_on sep s = [s].
Proof.
  induction s as [| c s IH]; simpl; intros H; [reflexivity |].
  apply Bool.orb_false_iff in H as [H1 H2]. rewrite H1, (IH H2). reflexivity.
Qed.

Lemma split_on_pieces (sep : ascii) (s : string) :
  Forall (fun p => has_char sep p = false) (split_on sep s).
Proof.
  induction s as [| c s IH]; simpl; [repeat constructor |].
  destruct (Ascii.eqb c sep) eqn:E; [constructor; [reflexivity | exact IH] |].
  destruct (split_on sep s) as [| p ps].
  - constructor; [simpl; now rewrite E | constructor].
  - inversion IH; subst. constructor; [simpl; now rewrite E | assumption].
Qed.

Lemma last_app_nonempty {A} (l1 l2 : list A) (d : A) :
  l2 <> [] -> last (l1 ++ l2) d = last l2 d.
Proof.
  intros H. induction l1 as [| x l1 IH]; [reflexivity |].
  simpl. destruct (l1 ++ l2)%list eqn:E.
  - apply app_eq_nil in E as [_ E]. contradiction.
  - exact IH.
Qed.

Lemma list_trim_start (s : string) :
  list_ascii_of_string (trim_start s) = drop_space (list_ascii_of_string s).
Proof.
  induction s as [| c s IH]; simpl; [reflexivity |].
  destruct (is_js_space c); [exact IH | reflexivity].
Qed.

Lemma list_string_rev (s : string) :
  list_ascii_of_string (string_rev s) = rev (list_ascii_of_string s).
Proof. unfold string_rev. apply list_ascii_of_string_of_list_ascii. Qed.

Lemma list_trim (s : string) :
  list_ascii_of_string (trim s)
  = rev (drop_space (rev (drop_space (list_ascii_of_string s)))).
Proof.
  unfold trim. rewrite list_string_rev, list_trim_start, list_string_rev, list_trim_start.
  reflexivity.
Qed.

Lemma list_ascii_inj (s t : string) :
  list_ascii_of_string s = list_ascii_of_string t -> s = t.
Proof.
  intros H. rewrite <- (string_of_list_ascii_of_string s),
    <- (string_of_list_ascii_of_string t), H. reflexivity.
Qed.

Lemma drop_space_idem (l : list ascii) : drop_space (drop_space l) = drop_space l.
Proof.
  induction l as [| c l IH]; simpl; [reflexivity |].
  destruct (is_js_space c) eqn:E; [exact IH | simpl; now rewrite E].
Qed.

Lemma drop_space_suffix (l : list ascii) : exists p, l = (p ++ drop_space l)%list.
Proof.
  induction l as [| c l [p Hp]]; simpl; [exists []; reflexivity |].
  destruct (is_js_space c).
  - exists (c :: p). simpl. now rewrite <- Hp.
  - exists []. reflexivity.
Qed.

Lemma drop_space_head (l : list ascii) :
  drop_space l = [] \/ exists c r, drop_space l = c :: r /\ is_js_space c = false.
Proof.
  induction l as [| c l IH]; simpl; [left; reflexivity |].
  destruct (is_js_space c) eqn:E; [exact IH | right; eauto].
Qed.

Lemma in_drop_space (c : ascii) (l : list ascii) : In c (drop_space l) -> In c l.
Proof.
  intros H. destruct (drop_space_suffix l) as [p Hp].
  rewrite Hp. apply in_or_app. now right.
Qed.

(** [trim] is idempotent. *)
Lemma trim_idem (s : string) : trim (trim s) = trim s.
Proof.
  apply list_ascii_inj. rewrite (list_trim (trim s)), (list_trim s).
  set (A := drop_space (list_ascii_of_string s)).
  set (B := drop_space (rev A)).
  assert (HB : drop_space (rev B) = rev B).
  { destruct B as [| b B'] eqn:EB; [reflexivity |].
    destruct (exists_last (l := b :: B') ltac:(discriminate)) as [B0 [x Ex]].
    rewrite Ex.
    destruct (drop_space_suffix (rev A)) as [p Hp]. fold B in Hp. rewrite EB, Ex in Hp.
    destruct (drop_space_head (list_ascii_of_string s)) as [HA | [c [r [HA Hc]]]];
      fold A in HA.
    - rewrite HA in Hp. simpl in Hp. destruct p; destruct B0; discriminate.
    - rewrite HA in Hp. simpl in Hp. rewrite app_assoc in Hp.
      apply app_inj_tail in Hp as [_ ->].
      rewrite rev_app_distr. simpl. now rewrite Hc. }
  rewrite HB, rev_involutive. unfold B at 1. rewrite drop_space_idem. reflexivity.
Qed.

Lemma has_char_list (c : ascii) (s : string) :
  has_char c s = true <-> In c (list_ascii_of_string s).
Proof.
  induction s as [| d s IH]; simpl; [split; [discriminate | contradiction] |].
  rewrite Bool.orb_true_iff, IH, Ascii.eqb_eq. tauto.
Qed.

Lemma has_char_trim (c : ascii) (s : string) :
  has_char c s = false -> has_char c (trim s) = false.
Proof.
  intros H. apply Bool.not_true_iff_false. intros Ht.
  apply Bool.not_true_iff_false in H. apply H.
  apply has_char_list. apply has_char_list in Ht. rewrite list_trim in Ht.
  apply in_rev, in_drop_space, in_rev, in_drop_space in Ht. exact Ht.
Qed.

Lemma trim_space_cons (s : string) : trim (String " "%char s) = trim s.
Proof. reflexivity. Qed.

Lemma map_trim_join (l : list string) :
  l <> [] -> Forall (fun t => has_char ","%char t = false) l ->
  map trim (split_on ","%char (join ", " l)) = map trim l.
Proof.
  induction l as [| x l IH]; intros Hne Hc; [contradiction |].
  inversion Hc as [| ? ? Hx Hl]; subst.
  destruct l as [| y l].
  - simpl. rewrite (split_on_no_sep _ _ Hx). reflexivity.
  - change (join ", " (x :: y :: l))
      with (x ++ String ","%char (String " "%char (join ", " (y :: l)))).
    rewrite split_on_sep_app, (split_on_no_sep _ _ Hx).
    rewrite split_on_other by reflexivity.
    specialize (IH ltac:(discriminate) Hl).
    destruct (split_on ","%char (join ", " (y :: l))) as [| p ps] eqn:E;
      [exfalso; exact (split_on_nonempty _ _ E) |].
    simpl. rewrite trim_space_cons. simpl in IH. rewrite IH. reflexivity.
Qed.

Lemma map_trim_id (l : list string) :
  Forall (fun t => trim t = t) l -> map trim l = l.
Proof. induction 1; simpl; congruence. Qed.

Lemma filter_nonempty_id (l : list string) :
  Forall (fun t => t <> "") l -> filter (fun t => negb (String.eqb t "")) l = l.
Proof.
  induction 1 as [| x l Hx _ IH]; simpl; [reflexivity |].
  destruct (String.eqb x "") eqn:E; [apply String.eqb_eq in E; contradiction |].
  simpl. now rewrite IH.
Qed.

Lemma join_parse_roundtrip (tags : list string) :
  Forall (fun t => t <> "" /\ trim t = t /\ has_char ","%char t = false) tags ->
  ResultsScreen.parse_tags (join ", " tags) = tags.
Proof.
  intros H. unfold ResultsScreen.parse_tags.
  destruct tags as [| t ts]; [reflexivity |].
  rewrite map_trim_join;
    [| discriminate | eapply Forall_impl; [| exact H]; simpl; tauto].
  rewrite map_trim_id by (eapply Forall_impl; [| exact H]; simpl; tauto).
  apply filter_nonempty_id. eapply Forall_impl; [| exact H]; simpl; tauto.
Qed.

Lemma parse_tags_clean_aux (input : string) :
  Forall (fun t => t <> "" /\ trim t = t /\ has_char ","%char t = false)
    (ResultsScreen.parse_tags input).
Proof.
  unfold ResultsScreen.parse_tags. apply Forall_forall. intros t Ht.
  apply filter_In in Ht as [Hin Hne].
  apply in_map_iff in Hin as [p [<- Hp]].
  pose proof (proj1 (Forall_forall _ _) (split_on_pieces ","%char input) p Hp) as Hc.
  split; [| split].
  - intros E. rewrite E in Hne. discriminate.
  - apply trim_idem.
  - now apply has_char_trim.
Qed.

Lemma prefix_refl (s : string) : String.prefix s s = true.
Proof.
  induction s as [| c s IH]; simpl; [reflexivity |].
  destruct (ascii_dec c c); [exact IH | contradiction].
Qed.

Lemma contains_refl (s : string) : contains s s = true.
Proof.
  destruct s as [| c s]; [reflexivity |].
  cbn [contains]. rewrite prefix_refl. reflexivity.
Qed.

Lemma contains_empty (s : string) : contains s "" = true.
Proof. destruct s; reflexivity. Qed.

Lemma prefix_lower (t s : string) :
  String.prefix t s = true -> String.prefix (toLowerCase t) (toLowerCase s) = true.
Proof.
  revert s. induction t as [| c t IH]; intros s H; [destruct s; reflexivity |].
  destruct s as [| d s]; simpl in *; [discriminate |].
  destruct (ascii_dec c d) as [<- | _]; [| discriminate].
  destruct (ascii_dec (lower_char c) (lower_char c)); [| contradiction].
  now apply IH.
Qed.

(** Lowercasing keeps an occurrence. *)
Lemma contains_lower (s t : string) :
  contains s t = true -> contains (toLowerCase s) (toLowerCase t) = true.
Proof.
  induction s as [| c s IH]; simpl; intros H.
  - rewrite Bool.orb_false_r in H. rewrite Bool.orb_false_r.
    now apply (prefix_lower t "").
  - apply Bool.orb_true_iff in H as [H | H]; apply Bool.orb_true_iff.
    + left. exact (prefix_lower t (String c s) H).
    + right. now apply IH.
Qed.

Lemma folders_step_in (h : HistoryScreen.State) (e : HistoryScreen.event) :
  In HistoryScreen.uncategorized (HistoryScreen.folders h) ->
  In HistoryScreen.uncategorized (HistoryScreen.folders (HistoryScreen.step h e)).
Proof.
  intros Hu. destruct e as [n t | c rid | [] | rid f]; simpl; auto.
  - unfold HistoryScreen.handleCreateFolder.
    destruct (negb (String.eqb (trim n) "")); [| exact Hu].
    apply in_or_app. now left.
Qed.

Lemma folders_step_names (h : HistoryScreen.State) (e : HistoryScreen.event) :
  Forall (fun f => HistoryScreen.name f <> "" /\ trim (HistoryScreen.name f) = HistoryScreen.name f)
    (HistoryScreen.folders h) ->
  Forall (fun f => HistoryScreen.name f <> "" /\ trim (HistoryScreen.name f) = HistoryScreen.name f)
    (HistoryScreen.folders (HistoryScreen.step h e)).
Proof.
  intros Hn. destruct e as [n t | c rid | [] | rid f]; simpl; auto.
  - unfold HistoryScreen.handleCreateFolder.
    destruct (String.eqb (trim n) "") eqn:E; simpl; [exact Hn |].
    apply Forall_app. split; [exact Hn |].
    constructor; [| constructor]. simpl.
    split; [now apply String.eqb_neq | apply trim_idem].
  - constructor; [| constructor]. split; [discriminate | reflexivity].
Qed.

(* ------------------------------------------------------------------ *)
(** ** Further properties: [getMimeType], tags, folders and history *)

(** X1: [getMimeType] looks only at the text after the last '.' of the
    file name, ignoring letter case; a name without any '.' is taken whole
    as its extension. *)
Theorem getMimeType_last_extension (base extension : string) :
  has_char "."%char extension = false ->
  getMimeType (base ++ String "."%char extension)
    = mime_of_extension (toLowerCase extension) /\
  getMimeType extension = mime_of_extension (toLowerCase extension).
Proof.
  intros H. unfold getMimeType.
  rewrite split_on_sep_app, (split_on_no_sep _ _ H).
  rewrite last_app_nonempty by discriminate. split; reflexivity.
Qed.

Lemma getMimeType_last_extension_witness :
  getMimeType "notes.v2.PDF" = "application/pdf" /\
  getMimeType "pdf" = "application/pdf".
Proof.
  destruct (getMimeType_last_extension "notes.v2" "PDF" eq_refl) as [H1 _].
  destruct (getMimeType_last_extension "" "pdf" eq_refl) as [_ H2].
  split; [exact H1 | exact H2].
Defined.

(** X13: tags that are non-empty, have no white space at either end and
    contain no comma survive the tag editor unchanged: saving the text
    [tags.join(', ')] that the editor starts with gives back the same
    tags, in the same order. *)
Theorem parse_tags_join (tags : list string) :
  Forall (fun t => t <> "" /\ trim t = t /\ has_char ","%char t = false) tags ->
  ResultsScreen.parse_tags (join ", " tags) = tags.
Proof. apply join_parse_roundtrip. Qed.

Lemma parse_tags_join_witness :
  ResultsScreen.parse_tags (join ", " ["biology"; "exam prep"]) = ["biology"; "exam prep"].
Proof.
  apply parse_tags_join.
  constructor; [| constructor; [| constructor]];
    (split; [discriminate | split; reflexivity]).
Defined.

(** X14: whatever text is saved, every stored tag is non-empty, has no
    white space at either end and contains no comma; saving the text the
    editor then shows leaves the tags as they are. *)
Theorem parse_tags_clean (input : string) :
  Forall (fun t => t <> "" /\ trim t = t /\ has_char ","%char t = false)
    (ResultsScreen.parse_tags input) /\
  ResultsScreen.parse_tags (join ", " (ResultsScreen.parse_tags input))
    = ResultsScreen.parse_tags input.
Proof.
  split; [apply parse_tags_clean_aux |].
  apply join_parse_roundtrip, parse_tags_clean_aux.
Qed.

(** X15: saving tags keeps every stored result in its place: a result
    with another id is left as it was, and a result with the edited id gets
    the parsed tags (none when the input holds only blanks and commas) with
    all its other fields unchanged; when the new tags are not empty, that
    result is listed in its folder of the history when searching for any
    of them. *)
Theorem handleTagSave_updates (result : QuizResult) (input : string)
    (prev : list QuizResult) :
  let next := ResultsScreen.handleTagSave result input prev in
  length next = length prev /\
  (forall i r, nth_error prev i = Some r -> id r <> id result ->
     nth_error next i = Some r) /\
  (forall i r, nth_error prev i = Some r -> id r = id result ->
     nth_error next i = Some (with_tags r (ResultsScreen.parse_tags input))) /\
  (forall r t, In r prev -> id r = id result -> In t (ResultsScreen.parse_tags input) ->
     In (with_tags r (ResultsScreen.parse_tags input))
        (HistoryScreen.filtered_unsorted (folderId r) t next)).
Proof.
  intros next. unfold next, ResultsScreen.handleTagSave.
  split; [apply length_map | split; [| split]].
  - intros i r Hi Hne. rewrite nth_error_map, Hi. simpl.
    apply String.eqb_neq in Hne. now rewrite Hne.
  - intros i r Hi Heq. rewrite nth_error_map, Hi. simpl.
    now rewrite Heq, String.eqb_refl.
  - intros r t Hin Heq Ht. unfold HistoryScreen.filtered_unsorted.
    apply filter_In. split.
    + apply filter_In. split.
      * apply in_map_iff. exists r. split; [| exact Hin].
        rewrite Heq, String.eqb_refl. reflexivity.
      * simpl. apply String.eqb_refl.
    + unfold HistoryScreen.matches_search. simpl.
      apply Bool.orb_true_iff. right. apply existsb_exists.
      exists t. split; [exact Ht | apply contains_refl].
Qed.

Lemma handleTagSave_updates_witness :
  nth_error (ResultsScreen.handleTagSave sample_result " , " [sample_result; three_result]) 1
    = Some three_result /\
  nth_error (ResultsScreen.handleTagSave sample_result " , " [sample_result; three_result]) 0
    = Some (with_tags sample_result []) /\
  In (with_tags sample_result ["biology"; "exam"])
     (HistoryScreen.filtered_unsorted "uncategorized" "exam"
        (ResultsScreen.handleTagSave sample_result " biology ,, exam" [sample_result])).
Proof.
  destruct (handleTagSave_updates sample_result " , " [sample_result; three_result])
    as [_ [Ho [Hm _]]].
  split; [apply (Ho 1%nat three_result); [reflexivity | discriminate] |].
  split.
  - apply (Hm 0%nat sample_result); reflexivity.
  - destruct (handleTagSave_updates sample_result " biology ,, exam" [sample_result])
      as [_ [_ [_ H]]].
    apply (H sample_result "exam"); [left; reflexivity | reflexivity | vm_compute; auto].
Defined.

(** X16: the folder list always holds the 'uncategorized' folder and only
    folders whose name is non-blank with no white space at either end, if
    it did so at first (as the default list does): creating a folder with a
    blank name (spaces, tabs, line breaks) changes nothing, a new folder
    gets the trimmed name, and deleting everything restores the
    'uncategorized' folder. *)
Theorem history_folders_invariant (h : HistoryScreen.State)
    (evs : list HistoryScreen.event) :
  In HistoryScreen.uncategorized (HistoryScreen.folders h) ->
  Forall (fun f => HistoryScreen.name f <> "" /\ trim (HistoryScreen.name f) = HistoryScreen.name f)
    (HistoryScreen.folders h) ->
  let h' := fold_left HistoryScreen.step evs h in
  In HistoryScreen.uncategorized (HistoryScreen.folders h') /\
  Forall (fun f => HistoryScreen.name f <> "" /\ trim (HistoryScreen.name f) = HistoryScreen.name f)
    (HistoryScreen.folders h') /\
  (forall n t, trim n = "" -> HistoryScreen.step h' (HistoryScreen.CreateFolder n t) = h').
Proof.
  intros Hu Hn h'.
  assert (Hblank : forall g n t, trim n = "" ->
            HistoryScreen.step g (HistoryScreen.CreateFolder n t) = g).
  { intros g n t Ht. unfold HistoryScreen.step, HistoryScreen.handleCreateFolder.
    rewrite Ht. destruct g; reflexivity. }
  assert (Hinv : In HistoryScreen.uncategorized (HistoryScreen.folders h') /\
          Forall (fun f => HistoryScreen.name f <> "" /\
                           trim (HistoryScreen.name f) = HistoryScreen.name f)
            (HistoryScreen.folders h')).
  2: { destruct Hinv as [H1 H2]. split; [exact H1 | split; [exact H2 | apply Hblank]]. }
  unfold h'. clear Hblank h'. revert h Hu Hn.
  induction evs as [| e evs IH]; intros h Hu Hn; simpl; [auto |].
  apply IH.
  - apply folders_step_in. exact Hu.
  - apply folders_step_names. exact Hn.
Qed.

Lemma history_folders_invariant_witness :
  let h' := fold_left HistoryScreen.step
              [HistoryScreen.CreateFolder "  Biology " 1; HistoryScreen.DeleteAll true;
               HistoryScreen.CreateFolder "Exam" 2] sample_history in
  In HistoryScreen.uncategorized (HistoryScreen.folders h') /\
  Forall (fun f => HistoryScreen.name f <> "" /\ trim (HistoryScreen.name f) = HistoryScreen.name f)
    (HistoryScreen.folders h') /\
  (forall n t, trim n = "" -> HistoryScreen.step h' (HistoryScreen.CreateFolder n t) = h').
Proof.
  apply history_folders_invariant.
  - left. reflexivity.
  - constructor; [| constructor]. split; [discriminate | reflexivity].
Defined.

(** X17: whatever order [sort] puts them in, the history lists only
    results of the active folder; a result of that folder whose topic or
    one of whose tags contains the search text, typed in ASCII in any
    letter case, is listed; an empty search lists the whole folder. *)
Theorem history_filter_shown (activeFolderId searchTerm : string)
    (rs shown : list QuizResult) :
  Permutation shown (HistoryScreen.filtered_unsorted activeFolderId searchTerm rs) ->
  (forall r, In r shown -> In r rs /\ folderId r = activeFolderId) /\
  (forall r t, In r rs -> folderId r = activeFolderId ->
     is_ascii t = true -> toLowerCase t = toLowerCase searchTerm ->
     contains (topic (result_quiz r)) t = true \/
       (exists tag, In tag (tags r) /\ contains tag t = true) ->
     In r shown) /\
  (searchTerm = "" -> forall r, In r rs -> folderId r = activeFolderId -> In r shown).
Proof.
  intros Hp.
  assert (Hin : forall r, In r rs -> folderId r = activeFolderId ->
                HistoryScreen.matches_search searchTerm r = true -> In r shown).
  { intros r Hr Hf Hm. apply (Permutation_in _ (Permutation_sym Hp)).
    unfold HistoryScreen.filtered_unsorted. apply filter_In. split; [| exact Hm].
    apply filter_In. split; [exact Hr |]. now apply String.eqb_eq. }
  split; [| split].
  - intros r Hr. apply (Permutation_in _ Hp) in Hr.
    unfold HistoryScreen.filtered_unsorted in Hr.
    apply filter_In in Hr as [Hr _]. apply filter_In in Hr as [Hr Hf].
    split; [exact Hr | now apply String.eqb_eq].
  - intros r t Hr Hf _ Ht Hc. apply Hin; [exact Hr | exact Hf |].
    unfold HistoryScreen.matches_search. rewrite <- Ht.
    apply Bool.orb_true_iff. destruct Hc as [Hc | [tag [Htag Hc]]].
    + left. now apply contains_lower.
    + right. apply existsb_exists. exists tag. split; [exact Htag |].
      now apply contains_lower.
  - intros -> r Hr Hf. apply Hin; [exact Hr | exact Hf |].
    unfold HistoryScreen.matches_search. simpl. now rewrite contains_empty.
Qed.

Lemma history_filter_shown_witness :
  In sample_result (HistoryScreen.filtered_unsorted "uncategorized" "PHOTO" [sample_result]).
Proof.
  destruct (history_filter_shown "uncategorized" "PHOTO" [sample_result]
              (HistoryScreen.filtered_unsorted "uncategorized" "PHOTO" [sample_result])
              (Permutation_refl _)) as [_ [H _]].
  apply (H sample_result "Photo"); [left; reflexivity | reflexivity | reflexivity
                                   | reflexivity |].
  left. reflexivity.
Defined.

(** X18: moving a result keeps every stored result in its place: a
    result with another id is left as it was, and a result with that id
    gets the target folder with all its other fields unchanged; afterwards
    it is listed in the target folder (with an empty search) and in no
    other folder.  The target folder is not checked to exist. *)
Theorem move_then_filter (rid target : string) (rs : list QuizResult) :
  let moved := HistoryScreen.handleMoveResult rid target rs in
  length moved = length rs /\
  (forall i r, nth_error rs i = Some r -> id r <> rid -> nth_error moved i = Some r) /\
  (forall i r, nth_error rs i = Some r -> id r = rid ->
     nth_error moved i = Some (with_folderId r target)) /\
  (forall r, In r rs -> id r = rid ->
     In (with_folderId r target) (HistoryScreen.filtered_unsorted target "" moved)) /\
  (forall f term r, f <> target ->
     In r (HistoryScreen.filtered_unsorted f term moved) -> id r <> rid).
Proof.
  intros moved. unfold moved, HistoryScreen.handleMoveResult.
  split; [apply length_map | split; [| split; [| split]]].
  - intros i r Hi Hne. rewrite nth_error_map, Hi. simpl.
    apply String.eqb_neq in Hne. now rewrite Hne.
  - intros i r Hi Hid. rewrite nth_error_map, Hi. simpl.
    now rewrite Hid, String.eqb_refl.
  - intros r Hr Hid. unfold HistoryScreen.filtered_unsorted.
    apply filter_In. split.
    + apply filter_In. split; [| simpl; apply String.eqb_refl].
      apply in_map_iff. exists r. split; [| exact Hr].
      now rewrite Hid, String.eqb_refl.
    + unfold HistoryScreen.matches_search. now rewrite contains_empty.
  - intros f term r Hf Hr Hid. unfold HistoryScreen.filtered_unsorted in Hr.
    apply filter_In in Hr as [Hr _]. apply filter_In in Hr as [Hr Hfo].
    apply String.eqb_eq in Hfo.
    apply in_map_iff in Hr as [r0 [E _]].
    destruct (String.eqb (id r0) rid) eqn:Eq.
    + subst r. simpl in Hfo. congruence.
    + subst r. apply String.eqb_neq in Eq. contradiction.
Qed.

Lemma move_then_filter_witness :
  nth_error (HistoryScreen.handleMoveResult "1760000000000" "biology"
               [three_result; sample_result]) 0 = Some three_result /\
  nth_error (HistoryScreen.handleMoveResult "1760000000000" "biology"
               [three_result; sample_result]) 1
    = Some (with_folderId sample_result "biology") /\
  In (with_folderId sample_result "biology")
     (HistoryScreen.filtered_unsorted "biology" ""
        (HistoryScreen.handleMoveResult "1760000000000" "biology" [sample_result])).
Proof.
  destruct (move_then_filter "1760000000000" "biology" [three_result; sample_result])
    as [_ [Ho [Hm _]]].
  split; [apply (Ho 0%nat three_result); [reflexivity | discriminate] |].
  split.
  - apply (Hm 1%nat sample_result); reflexivity.
  - destruct (move_then_filter "1760000000000" "biology" [sample_result])
      as [_ [_ [_ [H _]]]].
    apply H; [left; reflexivity | reflexivity].
Defined.

(* ------------------------------------------------------------------ *)
(** ** Further properties of the validator *)

(** What one successful iteration does, by question type. *)
Lemma validate_question_result (q q' : json) :
  validate_question q = inr q' ->
  (prop q "questionType" = inr (Val (JStr "multiple_choice")) /\ q' = q) \/
  (prop q "questionType" = inr (Val (JStr "fill_in_the_blank")) /\
   q' = set_prop q "options" (JArr [])).
Proof.
  unfold validate_question. intros Hv.
  destruct (prop q "questionType") as [e | qt] eqn:Eqt; [discriminate |].
  destruct (is_str qt "multiple_choice") eqn:Emc.
  - apply is_str_val in Emc. subst qt. left. split; [reflexivity |].
    destruct (prop q "options") as [e | [| []]]; try discriminate.
    destruct (_ || _); [discriminate |].
    destruct (prop q "correctAnswer") as [e | ca]; [discriminate |].
    destruct (includes items ca); [| discriminate].
    injection Hv as <-. reflexivity.
  - destruct (is_str qt "fill_in_the_blank") eqn:Efb; [| discriminate].
    apply is_str_val in Efb. subst qt. right.
    injection Hv as <-. split; reflexivity.
Qed.

Lemma validate_question_idem (q q' : json) :
  validate_question q = inr q' -> validate_question q' = inr q'.
Proof.
  intros H. destruct (validate_question_result q q' H) as [[_ ->] | [Hfb ->]].
  - exact H.
  - rewrite validate_question_fill_input.
    + now rewrite set_prop_set_prop_same.
    + rewrite prop_set_prop_other by reflexivity. exact Hfb.
Qed.

Lemma validate_questions_idem (qs qs' : list json) :
  validate_questions qs = inr qs' -> validate_questions qs' = inr qs'.
Proof.
  intros H. apply validate_questions_ok in H.
  induction H as [| q q' qs qs' Hq _ IH]; simpl; [reflexivity |].
  rewrite (validate_question_idem q q' Hq), IH. reflexivity.
Qed.

Lemma validate_questions_prefix (pre rest : list json) (q : json) (e : gen_error) :
  Forall (fun p => exists p', validate_question p = inr p') pre ->
  validate_question q = inl e ->
  validate_questions (pre ++ q :: rest) = inl e.
Proof.
  intros Hpre Hq. induction Hpre as [| p pre [p' Hp] _ IH]; simpl.
  - now rewrite Hq.
  - rewrite Hp, IH. reflexivity.
Qed.

(** X2: validation is idempotent: a quiz object that passed validation
    passes it again, unchanged. *)
Theorem validate_idempotent (c out : json) :
  validate c = inr out -> validate out = inr out.
Proof.
  intros H. apply validate_ok in H as [qs [qs' [_ [Hv [-> Hout]]]]].
  unfold validate. rewrite Hout, (validate_questions_idem qs qs' Hv).
  now rewrite set_prop_set_prop_same.
Qed.

Lemma validate_idempotent_witness :
  validate (candidate [fill_question "Plants make ___" [] "glucose"])
  = inr (candidate [fill_question "Plants make ___" [] "glucose"]).
Proof.
  apply (validate_idempotent (candidate [fill_question "Plants make ___" ["x"; "y"] "glucose"])).
  reflexivity.
Defined.

(** X3: validation changes nothing but the question array: every other
    property of the reply keeps its value, and the accepted questions are
    the reply's questions, in the same order, each either a
    multiple-choice question left as it was or a fill-in-the-blank
    question whose only change is that [options] is set to []. *)
Theorem validate_keeps_shape (c out : json) :
  validate c = inr out ->
  (forall k, k <> "questions" -> prop out k = prop c k) /\
  exists qs qs', prop c "questions" = inr (Val (JArr qs)) /\
    prop out "questions" = inr (Val (JArr qs')) /\
    Forall2 (fun q q' =>
               (prop q "questionType" = inr (Val (JStr "multiple_choice")) /\ q' = q) \/
               (prop q "questionType" = inr (Val (JStr "fill_in_the_blank")) /\
                q' = set_prop q "options" (JArr []))) qs qs'.
Proof.
  intros H. apply validate_ok in H as [qs [qs' [Hc [Hv [-> Hout]]]]].
  split.
  - intros k Hk. apply prop_set_prop_other. now apply String.eqb_neq.
  - exists qs, qs'. split; [exact Hc | split; [exact Hout |]].
    apply validate_questions_ok in Hv. clear Hc Hout.
    induction Hv as [| q q' qs qs' Hq _ IH];
      [constructor | constructor; [now apply validate_question_result | exact IH]].
Qed.

Lemma validate_keeps_shape_witness :
  prop (candidate [fill_question "Plants make ___" [] "glucose"]) "topic"
  = prop (candidate [fill_question "Plants make ___" ["x"] "glucose"]) "topic".
Proof.
  destruct (validate_keeps_shape (candidate [fill_question "Plants make ___" ["x"] "glucose"])
              (candidate [fill_question "Plants make ___" [] "glucose"]) eq_refl) as [H _].
  apply H. discriminate.
Defined.

(** X4: a question that is [null] makes validation throw a [TypeError];
    a question that is not an object (a string, number, array, ...) and an
    object whose [questionType] is not exactly one of the two strings
    'multiple_choice' and 'fill_in_the_blank' (missing, another case, ...)
    are rejected as having an unknown question type. *)
Theorem validate_question_kinds (q : json) :
  (q = JNull -> validate_question q = inl ErrTypeError) /\
  ((forall props, q <> JObj props) -> q <> JNull ->
     validate_question q = inl ErrUnknownQuestionType) /\
  (forall props, q = JObj props ->
     lookup props "questionType" <> Val (JStr "multiple_choice") ->
     lookup props "questionType" <> Val (JStr "fill_in_the_blank") ->
     validate_question q = inl ErrUnknownQuestionType).
Proof.
  split; [| split].
  - intros ->. reflexivity.
  - intros Hobj Hnull. destruct q; try reflexivity.
    + contradiction.
    + exfalso. exact (Hobj props eq_refl).
  - intros props -> Hmc Hfb. unfold validate_question. simpl.
    destruct (is_str (lookup props "questionType") "multiple_choice") eqn:E1.
    + apply is_str_val in E1. contradiction.
    + destruct (is_str (lookup props "questionType") "fill_in_the_blank") eqn:E2.
      * apply is_str_val in E2. contradiction.
      * reflexivity.
Qed.

Lemma validate_question_kinds_witness :
  validate_question JNull = inl ErrTypeError /\
  validate_question (JStr "What is 2 + 2?") = inl ErrUnknownQuestionType /\
  validate_question (JObj [("questionType", JStr "Multiple_Choice")]) = inl ErrUnknownQuestionType.
Proof.
  destruct (validate_question_kinds JNull) as [H1 _].
  destruct (validate_question_kinds (JStr "What is 2 + 2?")) as [_ [H2 _]].
  destruct (validate_question_kinds (JObj [("questionType", JStr "Multiple_Choice")]))
    as [_ [_ H3]].
  split; [apply H1; reflexivity | split].
  - apply H2; discriminate.
  - apply (H3 [("questionType", JStr "Multiple_Choice")]); [reflexivity | discriminate | discriminate].
Defined.

(** X5: the loop stops at the first failing question: when every question
    before it passes, the error of that question is the error of the whole
    reply, whatever the later questions are. *)
Theorem validate_first_failure (c : json) (pre rest : list json) (q : json) (e : gen_error) :
  prop c "questions" = inr (Val (JArr (pre ++ q :: rest))) ->
  Forall (fun p => exists p', validate_question p = inr p') pre ->
  validate_question q = inl e ->
  validate c = inl e.
Proof.
  intros Hc Hpre Hq. unfold validate. rewrite Hc.
  rewrite (validate_questions_prefix pre rest q e Hpre Hq). reflexivity.
Qed.

Lemma validate_first_failure_witness :
  validate (candidate [mc_question "Pick" ["a"; "b"; "c"; "d"] "a"; JNull;
                       mc_question "Pick" ["a"; "b"; "c"] "a"]) = inl ErrTypeError.
Proof.
  apply (validate_first_failure _ [mc_question "Pick" ["a"; "b"; "c"; "d"] "a"]
           [mc_question "Pick" ["a"; "b"; "c"] "a"] JNull ErrTypeError).
  - reflexivity.
  - constructor; [| constructor]. eexists. reflexivity.
  - reflexivity.
Defined.

(* ------------------------------------------------------------------ *)
(** ** Further properties of the session *)

Lemma sample_state_reachable : QuizScreen.reachable sample_state.
Proof.
  apply (QuizScreen.reach_mount sample_quiz sample_settings sample_state None).
  reflexivity.
Qed.

Lemma nth_error_array_set_same {A} (l : list A) (i : nat) (v : A) :
  (i < length l)%nat -> nth_error (QuizScreen.array_set l i v) i = Some v.
Proof.
  revert i. induction l as [| x l IH]; intros [| i] Hi; simpl in *; try lia; auto.
  apply IH. lia.
Qed.

Lemma nth_error_array_set_other {A} (l : list A) (i j : nat) (v : A) :
  j <> i -> nth_error (QuizScreen.array_set l i v) j = nth_error l j.
Proof.
  revert i j. induction l as [| x l IH]; intros [| i] [| j] Hij; simpl; auto;
    try (exfalso; lia); apply IH; lia.
Qed.

Lemma spec_score_none (n : nat) (qs : list Question) : spec_score (repeat None n) qs = 0%nat.
Proof.
  unfold spec_score. revert qs. induction n as [| n IH]; intros [| q qs]; simpl; auto.
Qed.

(** The score computation never throws while the answers are as many as
    the questions. *)
Lemma reduce_score_total (l : list (option string)) (qs : list Question) :
  length l = length qs ->
  QuizScreen.reduce_score l qs 0 0 = Some (spec_score l qs).
Proof.
  intros H. pose proof (reduce_score_spec l qs [] 0) as Hs. simpl in Hs.
  apply Hs. lia.
Qed.

Lemma mount_running (q : Quiz) (st : QuizSettings) :
  questions q <> [] -> (0 < duration st)%Z ->
  QuizScreen.mount q st = Some (QuizScreen.set_timer (QuizScreen.initial q st) true, None).
Proof.
  intros Hq Hd. unfold QuizScreen.mount.
  destruct (questions q) eqn:Eq; [contradiction |].
  unfold QuizScreen.run_effect.
  change (QuizScreen.isPaused (QuizScreen.set_timer (QuizScreen.initial q st) false))
    with false.
  change (QuizScreen.timeLeft (QuizScreen.set_timer (QuizScreen.initial q st) false))
    with (duration st * 60)%Z.
  assert (E : Z.leb (duration st * 60) 0 = false) by (apply Z.leb_gt; lia).
  rewrite E. reflexivity.
Qed.

Ltac range_case :=
  match goal with
  | C : (_ && _)%bool = true |- _ =>
      apply andb_prop in C as [C1 C2]; apply Z.leb_le in C1; apply Z.ltb_lt in C2
  | C : (_ && _)%bool = false |- _ =>
      apply andb_false_iff in C as [C | C]; [apply Z.leb_gt in C | apply Z.ltb_ge in C]
  end.

(** X6: "Previous" on the first question and "Next" / "Skip" on the last
    one do nothing; otherwise they move one question back or forward,
    clear the shown translation and keep the answers and the clock.
    Navigation never submits. *)
Theorem navigation_bounds (s : QuizScreen.State) :
  QuizScreen.reachable s ->
  QuizScreen.step s (goToPrev s)
  = (if Nat.eqb (QuizScreen.currentQuestionIndex s) 0 then s
     else QuizScreen.set_question s (QuizScreen.currentQuestionIndex s - 1), None) /\
  QuizScreen.step s (goToNext s)
  = (if Nat.eqb (S (QuizScreen.currentQuestionIndex s)) (length (questions (QuizScreen.quiz s)))
     then s else QuizScreen.set_question s (S (QuizScreen.currentQuestionIndex s)), None).
Proof.
  intros Hr. destruct (SessionFacts.reachable_invariant s Hr) as [_ [Hi _]].
  unfold goToPrev, goToNext. cbn [QuizScreen.step].
  split.
  - destruct (Nat.eqb (QuizScreen.currentQuestionIndex s) 0) eqn:E;
      [apply Nat.eqb_eq in E | apply Nat.eqb_neq in E];
      destruct (Z.leb 0 _ && Z.ltb _ _) eqn:C; range_case;
      try reflexivity; try (exfalso; lia).
    do 2 f_equal. lia.
  - destruct (Nat.eqb (S (QuizScreen.currentQuestionIndex s)) _) eqn:E;
      [apply Nat.eqb_eq in E | apply Nat.eqb_neq in E];
      destruct (Z.leb 0 _ && Z.ltb _ _) eqn:C; range_case;
      try reflexivity; try (exfalso; lia).
    do 2 f_equal. lia.
Qed.

Lemma navigation_bounds_witness :
  QuizScreen.step sample_state (goToPrev sample_state) = (sample_state, None) /\
  QuizScreen.step sample_state (goToNext sample_state) = (sample_state, None).
Proof. exact (navigation_bounds sample_state sample_state_reachable). Defined.

(** X7: while time remains (or the quiz is paused), choosing an answer
    records it at the current question only, leaves every other answer,
    the question shown and the clock as they were, and submits nothing. *)
Theorem answer_change_records (s : QuizScreen.State) (a : string) :
  QuizScreen.reachable s ->
  QuizScreen.isPaused s = true \/ (0 < QuizScreen.timeLeft s)%Z ->
  snd (QuizScreen.step s (QuizScreen.AnswerChange a)) = None /\
  nth_error (QuizScreen.userAnswers (fst (QuizScreen.step s (QuizScreen.AnswerChange a))))
    (QuizScreen.currentQuestionIndex s) = Some (Some a) /\
  (forall j, j <> QuizScreen.currentQuestionIndex s ->
     nth_error (QuizScreen.userAnswers (fst (QuizScreen.step s (QuizScreen.AnswerChange a)))) j
     = nth_error (QuizScreen.userAnswers s) j) /\
  QuizScreen.currentQuestionIndex (fst (QuizScreen.step s (QuizScreen.AnswerChange a)))
    = QuizScreen.currentQuestionIndex s /\
  QuizScreen.timeLeft (fst (QuizScreen.step s (QuizScreen.AnswerChange a)))
    = QuizScreen.timeLeft s.
Proof.
  intros Hr Hpt. destruct (SessionFacts.reachable_invariant s Hr) as [H1 [H2 _]].
  cbn [QuizScreen.step]. rewrite SessionFacts.run_effect_fst.
  destruct s as [q st i ans t p tr m tc tm]; simpl in *.
  split; [| split; [| split; [| split]]]; try reflexivity.
  - unfold QuizScreen.run_effect. simpl.
    destruct p; [reflexivity |].
    destruct Hpt as [Hp | Ht]; [discriminate |].
    assert (E : Z.leb t 0 = false) by (apply Z.leb_gt; lia). now rewrite E.
  - apply nth_error_array_set_same. lia.
  - intros j Hj. now apply nth_error_array_set_other.
Qed.

Lemma answer_change_records_witness :
  nth_error (QuizScreen.userAnswers
               (fst (QuizScreen.step sample_state (QuizScreen.AnswerChange "Oxygen")))) 0
  = Some (Some "Oxygen").
Proof.
  destruct (answer_change_records sample_state "Oxygen" sample_state_reachable
              (or_intror eq_refl)) as [_ [H _]].
  exact H.
Defined.

(** X8: the component keeps no "already submitted" flag: once the clock
    has run out (and the quiz is not paused), choosing an answer submits
    the quiz again, with the new answer and the full time taken. *)
Theorem answer_after_time_up_submits (s : QuizScreen.State) (a : string) :
  QuizScreen.reachable s -> QuizScreen.isPaused s = false ->
  (QuizScreen.timeLeft s <= 0)%Z ->
  exists r, snd (QuizScreen.step s (QuizScreen.AnswerChange a)) = Some r /\
    timeTaken r = (duration (QuizScreen.settings s) * 60 - QuizScreen.timeLeft s)%Z /\
    nth_error (userAnswers r) (QuizScreen.currentQuestionIndex s) = Some (Some a).
Proof.
  intros Hr Hp Ht. destruct (SessionFacts.reachable_invariant s Hr) as [H1 [H2 _]].
  cbn [QuizScreen.step]. unfold QuizScreen.run_effect.
  destruct s as [q st i ans t p tr m tc tm]; simpl in *. subst p.
  assert (E : Z.leb t 0 = true) by (apply Z.leb_le; lia). rewrite E.
  unfold QuizScreen.handleSubmit. simpl.
  rewrite reduce_score_total by (rewrite SessionFacts.array_set_length; exact H1).
  eexists. split; [reflexivity | split; [reflexivity |]].
  simpl. apply nth_error_array_set_same. lia.
Qed.

Lemma answer_after_time_up_submits_witness :
  exists r, snd (QuizScreen.step (QuizScreen.ticks 60 sample_state)
                   (QuizScreen.AnswerChange "Oxygen")) = Some r /\
    timeTaken r = (duration (QuizScreen.settings (QuizScreen.ticks 60 sample_state)) * 60
                   - QuizScreen.timeLeft (QuizScreen.ticks 60 sample_state))%Z /\
    nth_error (userAnswers r)
      (QuizScreen.currentQuestionIndex (QuizScreen.ticks 60 sample_state)) = Some (Some "Oxygen").
Proof.
  apply answer_after_time_up_submits.
  - apply reachable_ticks, sample_state_reachable.
  - vm_compute. reflexivity.
  - vm_compute. discriminate.
Defined.

(** X9: mounting a quiz with questions starts on the first question with
    every answer [null] and [duration * 60] seconds left; with a positive
    duration the countdown runs and nothing is submitted, with a duration
    of 0 or less the quiz is submitted at once, scoring 0 with no time
    taken. *)
Theorem mount_behaviour (q : Quiz) (st : QuizSettings) :
  questions q <> [] ->
  ((0 < duration st)%Z ->
     QuizScreen.mount q st = Some (QuizScreen.set_timer (QuizScreen.initial q st) true, None)) /\
  ((duration st <= 0)%Z ->
     exists r, QuizScreen.mount q st
               = Some (QuizScreen.set_timer (QuizScreen.initial q st) false, Some r) /\
       score r = 0%nat /\ timeTaken r = 0%Z /\
       userAnswers r = repeat None (length (questions q))).
Proof.
  intros Hq. split; [now apply mount_running |].
  intros Hd.
  pose proof (reduce_score_total (repeat None (length (questions q))) (questions q)
                (repeat_length _ _)) as Hs.
  rewrite spec_score_none in Hs.
  unfold QuizScreen.mount.
  destruct (questions q) eqn:Eq; [contradiction |].
  unfold QuizScreen.run_effect.
  change (QuizScreen.isPaused (QuizScreen.set_timer (QuizScreen.initial q st) false))
    with false.
  change (QuizScreen.timeLeft (QuizScreen.set_timer (QuizScreen.initial q st) false))
    with (duration st * 60)%Z.
  assert (E : Z.leb (duration st * 60) 0 = true) by (apply Z.leb_le; lia).
  rewrite E. unfold QuizScreen.handleSubmit.
  change (QuizScreen.userAnswers (QuizScreen.set_timer (QuizScreen.initial q st) false))
    with (repeat (@None string) (length (questions q))).
  change (QuizScreen.quiz (QuizScreen.set_timer (QuizScreen.initial q st) false)) with q.
  rewrite Eq, Hs.
  eexists. split; [reflexivity |]. simpl. split; [reflexivity | split; [lia | reflexivity]].
Qed.

Lemma mount_behaviour_witness :
  QuizScreen.mount sample_quiz sample_settings
  = Some (QuizScreen.set_timer (QuizScreen.initial sample_quiz sample_settings) true, None).
Proof.
  apply (proj1 (mount_behaviour sample_quiz sample_settings ltac:(discriminate))).
  reflexivity.
Defined.

(** X10: while the countdown runs, a tick takes one second off and does
    nothing else as long as more than one second is left; the tick that
    brings the clock to 0 stops the countdown and submits the quiz with
    the whole allotted time as time taken. *)
Theorem tick_countdown (s : QuizScreen.State) :
  QuizScreen.reachable s -> QuizScreen.timerActive s = true ->
  ((1 < QuizScreen.timeLeft s)%Z ->
     QuizScreen.step s QuizScreen.Tick
     = (QuizScreen.set_timeLeft s (QuizScreen.timeLeft s - 1), None)) /\
  (QuizScreen.timeLeft s = 1%Z ->
     exists r, QuizScreen.step s QuizScreen.Tick
               = (QuizScreen.set_timer (QuizScreen.set_timeLeft s 0) false, Some r) /\
       timeTaken r = (duration (QuizScreen.settings s) * 60)%Z /\
       userAnswers r = QuizScreen.userAnswers s).
Proof.
  intros Hr Hta. destruct (SessionFacts.reachable_invariant s Hr) as [H1 [_ [H3 _]]].
  assert (Hp : QuizScreen.isPaused s = false).
  { destruct (QuizScreen.isPaused s) eqn:E; [| reflexivity].
    rewrite (H3 eq_refl) in Hta. discriminate. }
  destruct s as [q st i ans t p tr m tc tm]; simpl in *. subst p tm.
  cbn [QuizScreen.step QuizScreen.timerActive]. unfold QuizScreen.run_effect. simpl.
  split.
  - intros Ht. assert (E : Z.leb (t - 1) 0 = false) by (apply Z.leb_gt; lia).
    rewrite E. reflexivity.
  - intros ->. simpl. unfold QuizScreen.handleSubmit. simpl.
    rewrite reduce_score_total by exact H1.
    eexists. split; [reflexivity |]. simpl. split; [lia | reflexivity].
Qed.

Lemma tick_countdown_witness :
  QuizScreen.step sample_state QuizScreen.Tick
  = (QuizScreen.set_timeLeft sample_state (QuizScreen.timeLeft sample_state - 1), None) /\
  exists r, QuizScreen.step (QuizScreen.ticks 59 sample_state) QuizScreen.Tick
            = (QuizScreen.set_timer (QuizScreen.set_timeLeft (QuizScreen.ticks 59 sample_state) 0)
                 false, Some r) /\
    timeTaken r = (duration (QuizScreen.settings (QuizScreen.ticks 59 sample_state)) * 60)%Z /\
    userAnswers r = QuizScreen.userAnswers (QuizScreen.ticks 59 sample_state).
Proof.
  split.
  - apply (proj1 (tick_countdown sample_state sample_state_reachable eq_refl)).
    reflexivity.
  - apply (proj2 (tick_countdown (QuizScreen.ticks 59 sample_state)
                    (reachable_ticks 59 sample_state sample_state_reachable)
                    ltac:(vm_compute; reflexivity))).
    vm_compute. reflexivity.
Defined.

(** X11: translating a multiple-choice question whose reply holds one
    string more than the question has options shows the first string as
    the question and the others, in order, as the options; no alert is
    shown and nothing else of the session changes. *)
Theorem translate_mc_success (s : QuizScreen.State) (lang : string) (p : Provider)
    (q : Question) (reply t : json) (ts : list json) :
  nth_error (questions (QuizScreen.quiz s)) (QuizScreen.currentQuestionIndex s) = Some q ->
  questionType q = multiple_choice ->
  translate_array p (QuizScreen.translate_texts q) lang = Some reply ->
  prop reply "translations" = inr (Val (JArr (t :: ts))) ->
  length ts = length (options q) ->
  QuizScreen.handleTranslate s lang p
  = (QuizScreen.set_translation s false false
       (Some {| QuizScreen.tc_question := Val t; QuizScreen.tc_options := Some ts |}), false) /\
  QuizScreen.step s (QuizScreen.TranslateTo lang p)
  = (QuizScreen.set_translation s false false
       (Some {| QuizScreen.tc_question := Val t; QuizScreen.tc_options := Some ts |}), None).
Proof.
  intros Hq Hmc Hp Htr Hlen.
  assert (Hl : Nat.eqb (length (t :: ts)) (length (QuizScreen.translate_texts q)) = true).
  { unfold QuizScreen.translate_texts. simpl. rewrite Hlen. apply Nat.eqb_refl. }
  assert (Htt : translateText_array p (QuizScreen.translate_texts q) lang = Some (t :: ts)).
  { unfold translateText_array. rewrite Hp, Htr, Hl. reflexivity. }
  assert (H : QuizScreen.handleTranslate s lang p
              = (QuizScreen.set_translation s false false
                   (Some {| QuizScreen.tc_question := Val t;
                            QuizScreen.tc_options := Some ts |}), false)).
  { unfold QuizScreen.handleTranslate. rewrite Hq, Hmc, Htt, Hl.
    destruct s; reflexivity. }
  split; [exact H |]. cbn [QuizScreen.step]. rewrite H. reflexivity.
Qed.

Lemma translate_mc_success_witness :
  QuizScreen.step sample_state (QuizScreen.TranslateTo "French" five_string_provider)
  = (QuizScreen.set_translation sample_state false false
       (Some {| QuizScreen.tc_question := Val (JStr "Quel gaz ?");
                QuizScreen.tc_options := Some (map JStr ["Oxygene"; "Dioxyde de carbone";
                                                         "Azote"; "Helium"]) |}), None).
Proof.
  apply (translate_mc_success sample_state "French" five_string_provider sample_question
           (JObj [("translations", JArr (map JStr ["Quel gaz ?"; "Oxygene";
                     "Dioxyde de carbone"; "Azote"; "Helium"]))])
           (JStr "Quel gaz ?") (map JStr ["Oxygene"; "Dioxyde de carbone"; "Azote"; "Helium"]));
    reflexivity.
Defined.

(** X12: translating a fill-in-the-blank question sends only the question
    text, never the options: the outcome depends only on the provider's
    answer for that one text, which replaces the question (no options are
    shown translated); a failure shows the alert and keeps no
    translation. *)
Theorem translate_fill_single (s : QuizScreen.State) (lang : string) (p : Provider)
    (q : Question) :
  nth_error (questions (QuizScreen.quiz s)) (QuizScreen.currentQuestionIndex s) = Some q ->
  questionType q = fill_in_the_blank ->
  QuizScreen.handleTranslate s lang p
  = match translate_single p (questionText q) lang with
    | Some t => (QuizScreen.set_translation s false false
                   (Some {| QuizScreen.tc_question := Val (JStr t);
                            QuizScreen.tc_options := None |}), false)
    | None => (QuizScreen.set_translation s false false None, true)
    end /\
  (forall p', translate_single p' (questionText q) lang = translate_single p (questionText q) lang ->
     QuizScreen.handleTranslate s lang p' = QuizScreen.handleTranslate s lang p).
Proof.
  intros Hq Hfb.
  assert (H : forall p0, QuizScreen.handleTranslate s lang p0
              = match translate_single p0 (questionText q) lang with
                | Some t => (QuizScreen.set_translation s false false
                               (Some {| QuizScreen.tc_question := Val (JStr t);
                                        QuizScreen.tc_options := None |}), false)
                | None => (QuizScreen.set_translation s false false None, true)
                end).
  { intros p0. unfold QuizScreen.handleTranslate. rewrite Hq, Hfb.
    destruct (translate_single p0 (questionText q) lang); destruct s; reflexivity. }
  split; [apply H |].
  intros p' Hp'. rewrite (H p'), (H p), Hp'. reflexivity.
Qed.

Lemma translate_fill_single_witness :
  QuizScreen.handleTranslate sample_fill_state "French" five_string_provider
  = (QuizScreen.set_translation sample_fill_state false false
       (Some {| QuizScreen.tc_question := Val (JStr "Plants make ___ from light.");
                QuizScreen.tc_options := None |}), false).
Proof.
  apply (proj1 (translate_fill_single sample_fill_state "French" five_string_provider
                  sample_fill_question eq_refl eq_refl)).
Defined.

(* ------------------------------------------------------------------ *)
(** ** Further properties of [App] *)

(** X19: "Retake Quiz" followed by the browser's [hashchange] mounts a
    fresh session of the stored quiz with the stored settings: first
    question, every answer [null], the full time, countdown running; the
    stored results are left as they were. *)
Theorem retake_starts_fresh_session (r : QuizResult) (a : App.State) :
  App.screen a <> App.QuizS -> questions (result_quiz r) <> [] ->
  (0 < duration (result_settings r))%Z ->
  App.screen (App.step (handleRetakeQuiz r a) App.HashChange) = App.QuizS /\
  App.quizResults (App.step (handleRetakeQuiz r a) App.HashChange) = App.quizResults a /\
  App.quizScreen (App.step (handleRetakeQuiz r a) App.HashChange)
  = Some (QuizScreen.set_timer (QuizScreen.initial (result_quiz r) (result_settings r)) true).
Proof.
  intros Hs Hq Hd.
  pose proof (mount_running (result_quiz r) (result_settings r) Hq Hd) as Hm.
  unfold App.step, handleRetakeQuiz. cbn [App.hash App.screen App.currentQuiz].
  destruct (App.screen a); [| contradiction | |]; rewrite Hm; repeat split.
Qed.

Lemma retake_starts_fresh_session_witness :
  App.quizScreen (App.step (handleRetakeQuiz sample_result results_app) App.HashChange)
  = Some (QuizScreen.set_timer (QuizScreen.initial sample_quiz sample_settings) true).
Proof.
  apply (retake_starts_fresh_session sample_result results_app);
    [discriminate | discriminate | reflexivity].
Defined.
